(** * Elevation profiles over a DEM tile mosaic

    A shallow embedding of [scripts/terrain_module.py] and the properties
    of its sampling policy, tile lookup, pixel addressing and tile cache.

    Conventions of the embedding:
    - a Python [int] is a [Z];
    - a Python [float] is held as the rational it denotes, a [Q];
      every arithmetic operation on floats, and the true division of
      two ints, is the exact operation followed by the rounding of
      binary64 ([Py.binary64]: nearest, ties to even, subnormal numbers
      included); comparisons, [math.floor] and [int] are exact. The
      true division raises [OverflowError] beyond the largest float.
      Infinities and NaN are not represented: the other operations are
      followed as long as their results are finite, which
      [Py.overflows] tests;
    - a [dict] is an association list in insertion order, since
      [get_tile_path_for_point] depends on the iteration order;
    - code that raises returns [exn + A]; code that also touches the
      process state (the [lru_cache] of [load_dataset], the calls made to
      the raster decoder and to pyproj) runs in the monad [M];
    - [print] calls and the local lists [x], [y] of [terrain_module],
      which are written and never read, are left out. *)

From Stdlib Require Import ZArith QArith Qround Qabs List String Bool Lia.
Import ListNotations.

Local Open Scope Z_scope.

(** ** Exceptions *)

Inductive message :=
| NoTileIncludes (x y : Q)
| RangeArg3Zero.

(** The exceptions the module and its libraries raise. *)
Inductive exn :=
| ValueError (m : message)
| IndexError
| RasterioIOError (path : string)
| TransformNotInvertibleError
| OverflowError
| ZeroDivisionError.

(** ** Python built-ins used by the module *)

Module Py.

(** The integer nearest to [n / d], for [d > 0]; a tie goes to the even
    one. *)
Definition round_half_even (n d : Z) : Z :=
  let q := n / d in
  match 2 * (n mod d) ?= d with
  | Lt => q
  | Gt => q + 1
  | Eq => if Z.even q then q else q + 1
  end.

(** The [e] with [2 ^ e <= n / d < 2 ^ (e + 1)], for [n, d > 0]. *)
Definition floor_log2 (n d : Z) : Z :=
  let e0 := Z.log2 n - Z.log2 d in
  if (if 0 <=? e0 then 2 ^ e0 * d <=? n else d <=? 2 ^ (- e0) * n)
  then e0 else e0 - 1.

(** The exponent of the last bit of the 53-bit significand of a float
    near [n / d]; subnormal numbers stop at [-1074]. *)
Definition ulp_exponent (n d : Z) : Z :=
  Z.max (floor_log2 (Z.abs n) d - 52) (-1074).

(** The binary64 number nearest to [x], ties to even, with no bound on
    the exponent from above. *)
Definition binary64 (x : Q) : Q :=
  let n := Qnum x in
  let d := Z.pos (Qden x) in
  if n =? 0 then 0%Q
  else
    let ex := ulp_exponent n d in
    if 0 <=? ex then inject_Z (round_half_even n (d * 2 ^ ex) * 2 ^ ex)
    else Qmake (round_half_even (n * 2 ^ (- ex)) d) (Z.to_pos (2 ^ (- ex))).

(** A rounded value at or beyond [2 ^ 1024] is no finite float. *)
Definition overflows (x : Q) : bool :=
  Qle_bool (inject_Z (2 ^ 1024)) (Qabs x).

(** [x + y], [x - y], [x * y] and [x / y] on floats. *)
Definition fadd (x y : Q) : Q := binary64 (x + y).
Definition fsub (x y : Q) : Q := binary64 (x - y).
Definition fmul (x y : Q) : Q := binary64 (x * y).
Definition fdiv (x y : Q) : Q := binary64 (x / y).

(** [a / b] on two ints: true division, the float nearest to the
    quotient. It raises when [b] is zero and when the quotient is too
    large for a float. *)
Definition true_div (a b : Z) : exn + Q :=
  if b =? 0 then inl ZeroDivisionError
  else
    let q := binary64 (inject_Z a / inject_Z b) in
    if overflows q then inl OverflowError else inr q.

(** [int(x)] on a float: truncation toward zero. *)
Definition int (x : Q) : Z := Z.quot (Qnum x) (Z.pos (Qden x)).

(** [math.floor(x)]. *)
Definition floor (x : Q) : Z := Qfloor x.

(** [max(a, b)]: the first argument unless the second is strictly
    greater. *)
Definition max (a b : Q) : Q := if Qle_bool b a then a else b.

(** [len(range(start, stop, step))] for a non-zero step, as CPython
    computes it. *)
Definition range_length (start stop step : Z) : Z :=
  let '(lo, hi, st) :=
    if 0 <? step then (start, stop, step) else (stop, start, - step) in
  if hi <=? lo then 0 else (hi - lo - 1) / st + 1.

(** [list(range(start, stop, step))] for a non-zero step; a zero step
    raises, which the caller models. *)
Definition range (start stop step : Z) : list Z :=
  map (fun i => start + Z.of_nat i * step)
      (seq 0 (Z.to_nat (range_length start stop step))).

End Py.

(** ** The sampling increment *)

Definition determine_length_increment (length : Z) : exn + Z :=
  match
    (if 60000 <=? length then Py.true_div length 600
     else
       match Py.true_div length 100 with
       | inl err => inl err
       | inr quotient => inr (Py.max quotient 1)
       end)
  with
  | inl err => inl err
  | inr increment => inr (Py.int increment)
  end.

(** The distances the main loop of [terrain_module] visits:
    [range(0, length, increment)]; none when the increment raises. *)
Definition sample_distances (length : Z) : list Z :=
  match determine_length_increment length with
  | inl _ => []
  | inr increment => Py.range 0 length increment
  end.

(** ** Data model *)

Definition point : Type := Q * Q.

(** [dataset.bounds] as a tuple: [(left, bottom, right, top)]. *)
Definition bounds : Type := Q * Q * Q * Q.

(** The six coefficients of an [affine.Affine] matrix
    [| sa sb sc ; sd se sf ; 0 0 1 |]. *)
Record affine := Affine { sa : Q; sb : Q; sc : Q; sd : Q; se : Q; sf : Q }.

(** A two-dimensional numpy array, row by row. Its shape is read off
    the rows; numpy arrays are rectangular. *)
Record ndarray := NdArray { rows : list (list Q) }.

Definition shape0 (band : ndarray) : Z := Z.of_nat (List.length (rows band)).
Definition shape1 (band : ndarray) : Z :=
  Z.of_nat (List.length (hd [] (rows band))).

(** The cell in row [r] and column [c], both counted from zero. *)
Definition cell (band : ndarray) (r c : Z) : Q :=
  nth (Z.to_nat c) (nth (Z.to_nat r) (rows band) []) 0%Q.

(** What [rasterio.open] gives for one tile. *)
Record dataset := Dataset {
  dataset_bounds : bounds;
  dataset_transform : affine;
  dataset_band1 : ndarray
}.

(** The files the module reads: [glob_tif folder] is
    [glob.glob(os.path.join(folder, "*.tif"))], and [open_raster path] is
    [rasterio.open(path)], [None] when the file cannot be read. *)
Record filesystem := FileSystem {
  glob_tif : string -> list string;
  open_raster : string -> option dataset
}.

(** ** Affine transforms and array indexing *)

(** [transform * (x, y)]. *)
Definition affine_apply (t : affine) (p : point) : point :=
  let '(vx, vy) := p in
  (Py.fadd (Py.fadd (Py.fmul vx (sa t)) (Py.fmul vy (sb t))) (sc t),
   Py.fadd (Py.fadd (Py.fmul vx (sd t)) (Py.fmul vy (se t))) (sf t)).

Definition determinant (t : affine) : Q :=
  Py.fsub (Py.fmul (sa t) (se t)) (Py.fmul (sb t) (sd t)).

(** [~transform]. *)
Definition affine_invert (t : affine) : exn + affine :=
  if Qeq_bool (determinant t) 0 then inl TransformNotInvertibleError
  else
    let idet := Py.fdiv 1 (determinant t) in
    let ra := Py.fmul (se t) idet in
    let rb := Py.fmul (- sb t) idet in
    let rd := Py.fmul (- sd t) idet in
    let re := Py.fmul (sa t) idet in
    inr (Affine ra rb (Py.fsub (Py.fmul (- sc t) ra) (Py.fmul (sf t) rb))
                rd re (Py.fsub (Py.fmul (- sc t) rd) (Py.fmul (sf t) re))).

(** One axis of a numpy integer index: an index in [[0, n)] is kept, one
    in [[-n, 0)] counts from the end, anything else is out of bounds. *)
Definition normalize_index (n i : Z) : option Z :=
  if (0 <=? i) && (i <? n) then Some i
  else if (- n <=? i) && (i <? 0) then Some (n + i)
  else None.

(** [band[row, col]]. *)
Definition ndarray_getitem (band : ndarray) (row col : Z) : exn + Q :=
  match normalize_index (shape0 band) row,
        normalize_index (shape1 band) col with
  | Some r, Some c => inr (cell band r c)
  | _, _ => inl IndexError
  end.

Definition transform_xy_to_rowcol (transform : affine) (x y : Q) : Z * Z :=
  let eps := 0%Q in
  let '(col, row) := affine_apply transform (Py.fadd x eps, Py.fsub y eps) in
  (Py.floor row, Py.floor col).

(** ** The extent index *)

(** The [extents] dict: bounds to tile path, in insertion order. *)
Definition extents_dict : Type := list (bounds * string).

Definition bounds_eqb (k1 k2 : bounds) : bool :=
  let '(l1, b1, r1, t1) := k1 in
  let '(l2, b2, r2, t2) := k2 in
  Qeq_bool l1 l2 && Qeq_bool b1 b2 && Qeq_bool r1 r2 && Qeq_bool t1 t2.

(** [extents[key] = value]: an existing key keeps its place. *)
Fixpoint dict_set (extents : extents_dict) (key : bounds) (value : string)
  : extents_dict :=
  match extents with
  | [] => [(key, value)]
  | (k, v) :: rest =>
      if bounds_eqb k key then (k, value) :: rest
      else (k, v) :: dict_set rest key value
  end.

Fixpoint load_extents_from (fs : filesystem) (tile_paths : list string)
    (extents : extents_dict) : exn + extents_dict :=
  match tile_paths with
  | [] => inr extents
  | tile_path :: rest =>
      match open_raster fs tile_path with
      | None => inl (RasterioIOError tile_path)
      | Some dataset =>
          load_extents_from fs rest
            (dict_set extents (dataset_bounds dataset) tile_path)
      end
  end.

Definition load_extents (fs : filesystem) (dem_folder : string)
  : exn + extents_dict :=
  load_extents_from fs (glob_tif fs dem_folder) [].

Fixpoint get_tile_path_for_point (extents : extents_dict) (x y : Q)
  : exn + string :=
  match extents with
  | [] => inl (ValueError (NoTileIncludes x y))
  | ((left_, bottom, right_, top), path) :: rest =>
      if Qle_bool left_ x && Qle_bool x right_
         && Qle_bool y top && Qle_bool bottom y
      then inr path
      else get_tile_path_for_point rest x y
  end.

(** ** Process state and the monad of the effectful code *)

(** What [load_dataset] returns and its cache keeps: the band and the
    inverse transform. *)
Definition cached_tile : Type := ndarray * affine.

(** The part of the process the module reads and writes:
    - [load_dataset_cache]: the [lru_cache] of [load_dataset], most
      recently used entry first;
    - [decoded]: the tile paths whose band was read by [dataset.read],
      latest first;
    - [reprojected]: the [(from, to)] projections of each call of
      [shapely.ops.transform], latest first. *)
Record world := World {
  load_dataset_cache : list (string * cached_tile);
  decoded : list string;
  reprojected : list (string * string)
}.

Definition initial_world : world := World [] [] [].

Definition M (A : Type) : Type := world -> (exn + A) * world.

Definition ret {A} (x : A) : M A := fun w => (inr x, w).

Definition raise {A} (err : exn) : M A := fun w => (inl err, w).

Definition bind {A B} (m : M A) (k : A -> M B) : M B :=
  fun w =>
    match m w with
    | (inl err, w') => (inl err, w')
    | (inr x, w') => k x w'
    end.

(** A computation that only returns or raises. *)
Definition lift {A} (r : exn + A) : M A := fun w => (r, w).

Declare Scope py_scope.
Delimit Scope py_scope with py.
Notation "x <- m ;; k" := (bind m (fun x => k))
  (at level 100, m at next level, right associativity) : py_scope.
Notation "' pat <- m ;; k" := (bind m (fun x => match x with pat => k end))
  (at level 100, pat pattern, m at next level, right associativity) : py_scope.

Local Open Scope py_scope.

(** [for item in items: out.append(body(item))], stopping at the first
    exception. *)
Fixpoint for_each {A B} (items : list A) (body : A -> M B) : M (list B) :=
  match items with
  | [] => ret []
  | item :: rest =>
      z <- body item ;;
      zs <- for_each rest body ;;
      ret (z :: zs)
  end.

(** ** [functools.lru_cache] *)

Fixpoint cache_get (cache : list (string * cached_tile)) (key : string)
  : option cached_tile :=
  match cache with
  | [] => None
  | (k, v) :: rest => if String.eqb k key then Some v else cache_get rest key
  end.

Definition cache_remove (cache : list (string * cached_tile)) (key : string)
  : list (string * cached_tile) :=
  filter (fun kv => negb (String.eqb (fst kv) key)) cache.

Definition set_cache (cache : list (string * cached_tile)) (w : world)
  : world :=
  World cache (decoded w) (reprojected w).

(** [lru_cache(maxsize)(user_function)(key)] for a positive [maxsize]:
    a hit moves the entry to the most recent place and returns it; a
    miss calls the function, stores nothing when it raises, and otherwise
    stores the result, dropping the oldest entry of a full cache. *)
Definition lru_cache (maxsize : nat) (user_function : string -> M cached_tile)
    (key : string) : M cached_tile :=
  fun w =>
    match cache_get (load_dataset_cache w) key with
    | Some result =>
        (inr result,
         set_cache ((key, result) :: cache_remove (load_dataset_cache w) key) w)
    | None =>
        match user_function key w with
        | (inl err, w') => (inl err, w')
        | (inr result, w') =>
            let cache := load_dataset_cache w' in
            let kept :=
              if (maxsize <=? List.length cache)%nat then removelast cache
              else cache in
            (inr result, set_cache ((key, result) :: kept) w')
        end
    end.

(** ** The module's functions that touch the process *)

Section Pipeline.

(** The files under the DEM folder. *)
Variable fs : filesystem.

(** [pyproj.transform(Proj(init=from), Proj(init=to), x, y)]. *)
Variable pyproj_transform : string -> string -> point -> point.

(** [LineString(coordinates).length] and
    [LineString(coordinates).interpolate(distance)]. *)
Variable geometry_length : list point -> Q.
Variable interpolate : list point -> Z -> point.

Definition rasterio_open (tile_path : string) : M dataset :=
  match open_raster fs tile_path with
  | Some dataset => ret dataset
  | None => raise (RasterioIOError tile_path)
  end.

(** [dataset.read(1)]. *)
Definition dataset_read (tile_path : string) (dataset : dataset)
  : M ndarray :=
  fun w =>
    (inr (dataset_band1 dataset),
     World (load_dataset_cache w) (tile_path :: decoded w) (reprojected w)).

(** The body of [load_dataset], without the decorator. *)
Definition load_dataset_wrapped (tile_path : string) : M cached_tile :=
  dataset <- rasterio_open tile_path ;;
  band <- dataset_read tile_path dataset ;;
  transform <- lift (affine_invert (dataset_transform dataset)) ;;
  ret (band, transform).

Definition load_dataset : string -> M cached_tile :=
  lru_cache 32 load_dataset_wrapped.

Definition get_value_from_dem_tile (tile_path : string) (x y : Q) : M Q :=
  '(band, transform) <- load_dataset tile_path ;;
  let '(row, col) := transform_xy_to_rowcol transform x y in
  lift (ndarray_getitem band row col).

(** [shapely.ops.transform(partial(pyproj.transform, Proj(init=from),
    Proj(init=to)), geometry)], on the coordinates of the geometry. *)
Definition transform (from to : string) (coordinates : list point)
  : M (list point) :=
  fun w =>
    (inr (map (pyproj_transform from to) coordinates),
     World (load_dataset_cache w) (decoded w) ((from, to) :: reprojected w)).

Definition transform_point (from to : string) (p : point) : M point :=
  fun w =>
    (inr (pyproj_transform from to p),
     World (load_dataset_cache w) (decoded w) ((from, to) :: reprojected w)).

(** The body of the main loop for one distance along the line. *)
Definition sample_at (extents : extents_dict) (line_geometry : list point)
    (currentdistance : Z) : M Q :=
  let point := interpolate line_geometry currentdistance in
  '(xp, yp) <- transform_point "epsg:27700" "epsg:4326" point ;;
  tile_path <- lift (get_tile_path_for_point extents xp yp) ;;
  z <- get_value_from_dem_tile tile_path xp yp ;;
  ret z.

Definition terrain_module (dem_folder : string) (line : list point)
    (old_crs new_crs : string) : M (list Q) :=
  extents <- lift (load_extents fs dem_folder) ;;
  let line_geometry := line in
  line_geometry <- transform "epsg:4326" "epsg:27700" line_geometry ;;
  let length := Py.int (geometry_length line_geometry) in
  increment <- lift (determine_length_increment length) ;;
  if increment =? 0 then raise (ValueError RangeArg3Zero)
  else for_each (Py.range 0 length increment)
                (sample_at extents line_geometry).

(** The positions the main loop samples, in the projected system. *)
Definition walk (line_geometry : list point) (length increment : Z)
  : list point :=
  map (interpolate line_geometry) (Py.range 0 length increment).

End Pipeline.

(** ** Vocabulary of the statements *)

(** The point [(x, y)] lies in the rectangle, borders included. *)
Definition in_extent (extent : bounds) (x y : Q) : Prop :=
  let '(left_, bottom, right_, top) := extent in
  (left_ <= x /\ x <= right_ /\ bottom <= y /\ y <= top)%Q.

(** The row and column [get_value_from_dem_tile] addresses for a point:
    the floors of the image of the point under the inverse transform,
    computed as [transform_xy_to_rowcol] computes it. *)
Definition floored_row (inverse : affine) (x y : Q) : Z :=
  Qfloor (snd (affine_apply inverse (Py.fadd x 0, Py.fsub y 0))).
Definition floored_col (inverse : affine) (x y : Q) : Z :=
  Qfloor (fst (affine_apply inverse (Py.fadd x 0, Py.fsub y 0))).


(** What a fresh decode of a tile gives, leaving the process aside. *)
Definition fresh_decode (fs : filesystem) (tile_path : string)
  : exn + cached_tile :=
  match open_raster fs tile_path with
  | None => inl (RasterioIOError tile_path)
  | Some dataset =>
      match affine_invert (dataset_transform dataset) with
      | inl err => inl err
      | inr inverse => inr (dataset_band1 dataset, inverse)
      end
  end.

Definition loadable (fs : filesystem) (tile_path : string) : bool :=
  match fresh_decode fs tile_path with inr _ => true | inl _ => false end.

(** Every entry of the cache is what a fresh decode of its path gives. *)
Definition cache_coherent (fs : filesystem) (w : world) : Prop :=
  forall key value,
    cache_get (load_dataset_cache w) key = Some value ->
    fresh_decode fs key = inr value.

(** The process after a sequence of [load_dataset] calls, whatever each
    returned or raised. *)
Fixpoint after_gets (fs : filesystem) (tile_paths : list string) (w : world)
  : world :=
  match tile_paths with
  | [] => w
  | tile_path :: rest => after_gets fs rest (snd (load_dataset fs tile_path w))
  end.

(** The keys that differ from [key]. *)
Definition other (key : string) : string -> bool :=
  fun key' => negb (String.eqb key' key).

(** The distinct elements of a list, each at its first occurrence. *)
Fixpoint distinct (keys : list string) : list string :=
  match keys with
  | [] => []
  | k :: rest => k :: filter (other k) (distinct rest)
  end.

(** The tile paths a sequence of calls leaves in use, most recent first:
    the calls that raise leave no trace. *)
Definition recently_used (fs : filesystem) (tile_paths : list string)
  : list string :=
  distinct (rev (filter (loadable fs) tile_paths)).

(** Every entry was written for a tile that opens and has the bounds of
    the entry. *)
Definition index_sound (fs : filesystem) (tile_paths : list string)
    (extents : extents_dict) : Prop :=
  forall k v,
    In (k, v) extents ->
    In v tile_paths
    /\ exists tile,
         open_raster fs v = Some tile
         /\ bounds_eqb k (dataset_bounds tile) = true.

(** The bounds of every tile that opens are a key of the index. *)
Definition index_complete (fs : filesystem) (tile_paths : list string)
    (extents : extents_dict) : Prop :=
  forall p tile,
    In p tile_paths ->
    open_raster fs p = Some tile ->
    exists k v, In (k, v) extents
                /\ bounds_eqb k (dataset_bounds tile) = true.

(** No two entries of the index have equal keys. *)
Definition keys_distinct (extents : extents_dict) : Prop :=
  ForallOrdPairs (fun e1 e2 => bounds_eqb (fst e1) (fst e2) = false) extents.

(** The entry [(k, v)] stands for the last of the listed tiles whose
    bounds are [k]: [v] is listed, it opens and its bounds are [k], and
    no tile listed after it has these bounds. *)
Definition last_with_bounds (fs : filesystem) (tile_paths : list string)
    (k : bounds) (v : string) : Prop :=
  exists before after,
    tile_paths = before ++ v :: after
    /\ (exists tile,
          open_raster fs v = Some tile
          /\ bounds_eqb k (dataset_bounds tile) = true)
    /\ forall q tile,
         In q after -> open_raster fs q = Some tile ->
         bounds_eqb k (dataset_bounds tile) = false.

(** The elevation of a point read straight from the files, without the
    cache: the tile of the point, a fresh decode of it, the cell at the
    floored row and column. *)
Definition elevation_at (fs : filesystem) (extents : extents_dict) (x y : Q)
  : exn + Q :=
  match get_tile_path_for_point extents x y with
  | inl err => inl err
  | inr tile_path =>
      match fresh_decode fs tile_path with
      | inl err => inl err
      | inr (band, inverse) =>
          ndarray_getitem band (floored_row inverse x y)
                               (floored_col inverse x y)
      end
  end.

(** The results of [step] over a list, or the first error. *)
Fixpoint all_or_first_error {A B} (step : A -> exn + B) (items : list A)
  : exn + list B :=
  match items with
  | [] => inr []
  | item :: rest =>
      match step item with
      | inl err => inl err
      | inr z =>
          match all_or_first_error step rest with
          | inl err => inl err
          | inr zs => inr (z :: zs)
          end
      end
  end.

(** The profile read straight from the files, without cache or
    process. *)
Definition profile_from_files (fs : filesystem)
    (pyproj_transform : string -> string -> point -> point)
    (geometry_length : list point -> Q)
    (interpolate : list point -> Z -> point)
    (dem_folder : string) (line : list point) : exn + list Q :=
  match load_extents fs dem_folder with
  | inl err => inl err
  | inr extents =>
      let line_geometry :=
        map (pyproj_transform "epsg:4326" "epsg:27700")%string line in
      let length := Py.int (geometry_length line_geometry) in
      match determine_length_increment length with
      | inl err => inl err
      | inr increment =>
          all_or_first_error
            (fun distance =>
               let '(xp, yp) :=
                 pyproj_transform "epsg:27700"%string "epsg:4326"%string
                   (interpolate line_geometry distance) in
               elevation_at fs extents xp yp)
            (Py.range 0 length increment)
      end
  end.

(** ** Fixtures *)

Local Open Scope Q_scope.

(** A projection pair that moves nothing. *)
Definition same_place (from to : string) (p : point) : point := p.

(** Length and interpolation of a straight line that runs east from its
    first point, where shapely's [length] is the difference of the end
    abscissas and [interpolate(distance)] adds [distance] to the first. *)
Definition eastward_length (line : list point) : Q :=
  match line with
  | [] => 0
  | p :: _ => fst (last line p) - fst p
  end.

Definition eastward_interpolate (line : list point) (distance : Z) : point :=
  match line with
  | [] => (0, 0)
  | (x0, y0) :: _ => (x0 + inject_Z distance, y0)
  end.

(** A folder without tiles. *)
Definition empty_folder : filesystem :=
  FileSystem (fun _ => []) (fun _ => None).

(** One north-up tile of 2 rows and 3 columns over
    [0 <= x <= 120000], [0 <= y <= 100]: cells 40000 wide and 50 high. *)
Definition strip_band : ndarray := NdArray [[10; 20; 30]; [40; 50; 60]].

Definition strip_dataset : dataset :=
  Dataset (0, 0, 120000, 100) (Affine 40000 0 0 0 (-50) 100) strip_band.

Definition strip_folder : filesystem :=
  FileSystem
    (fun _ => ["dem/strip.tif"%string])
    (fun path =>
       if String.eqb path "dem/strip.tif" then Some strip_dataset else None).

(** A line of length 60599.5 that runs east along [y = 10] inside the
    strip tile. *)
Definition strip_line : list point := [(0, 10); (121199 # 2, 10)].

(** The run of [terrain_module] along this line from an empty cache, and
    the profile it returns. *)
Definition strip_run : (exn + list Q) * world :=
  terrain_module strip_folder same_place eastward_length eastward_interpolate
                 "dem" strip_line "EPSG:4326" "EPSG:27700" initial_world.

Definition strip_profile : list Q :=
  match fst strip_run with
  | inr profile => profile
  | inl _ => []
  end.

(** One tile of 2 rows and 2 columns turned by 45 degrees: pixel
    [(col, row)] sits at [(col + row, row - col)], so the bounds, the
    box around the four corners, are [0 <= x <= 4], [-2 <= y <= 2]. *)
Definition turned_band : ndarray := NdArray [[1; 2]; [3; 4]].

Definition turned_dataset : dataset :=
  Dataset (0, -2, 4, 2) (Affine 1 1 0 (-1) 1 0) turned_band.

Definition turned_folder : filesystem :=
  FileSystem
    (fun _ => ["dem/turned.tif"%string])
    (fun path =>
       if String.eqb path "dem/turned.tif" then Some turned_dataset else None).

(** The inverse transforms of the two tiles, as [affine_invert] computes
    them: [col = x / 40000], [row = (100 - y) / 50] for the strip, and
    [col = (x - y) / 2], [row = (x + y) / 2] for the turned tile. *)
Definition inverse_or_zero (t : affine) : affine :=
  match affine_invert t with
  | inr inverse => inverse
  | inl _ => Affine 0 0 0 0 0 0
  end.

Definition strip_inverse : affine :=
  Eval vm_compute in inverse_or_zero (dataset_transform strip_dataset).


(** A folder where every path opens, and [n] distinct one-letter paths
    ["A"], ["B"], ... *)
Definition open_folder : filesystem :=
  FileSystem (fun _ => []) (fun _ => Some strip_dataset).

Definition tile_names (n : nat) : list string :=
  map (fun i => String (Ascii.ascii_of_nat (65 + i)) EmptyString) (seq 0 n).

(** Two tiles with the same bounds, listed one after the other. *)
Definition twin_dataset : dataset :=
  Dataset (0, 0, 120000, 100) (Affine 40000 0 0 0 (-50) 100)
          (NdArray [[1; 2; 3]; [4; 5; 6]]).

Definition twin_folder : filesystem :=
  FileSystem
    (fun _ => ["dem/a.tif"%string; "dem/b.tif"%string])
    (fun path =>
       if String.eqb path "dem/a.tif" then Some strip_dataset
       else if String.eqb path "dem/b.tif" then Some twin_dataset
       else None).

(** The two extents of the first end-to-end scenario. *)
Definition two_extents : extents_dict :=
  [((0, 0, 10, 10), "tile1"%string); ((10, 0, 20, 10), "tile2"%string)].

Local Close Scope Q_scope.

(** * Properties *)

(** ** Worked values *)

Example increment_30000 : determine_length_increment 30000 = inr 300.
Proof. vm_compute. reflexivity. Qed.

Example increment_120000 : determine_length_increment 120000 = inr 200.
Proof. vm_compute. reflexivity. Qed.

(** The true division rounds: one below a multiple of 600, far enough
    out, the quotient is rounded up to the next integer. *)
Example increment_rounds_up :
  determine_length_increment (600 * 2 ^ 45 - 1) = inr (2 ^ 45).
Proof. vm_compute. reflexivity. Qed.

(** The true division of an int too large for a float raises. *)
Example increment_overflows :
  determine_length_increment (10 ^ 400) = inl OverflowError
  /\ determine_length_increment (- 10 ^ 400) = inl OverflowError.
Proof. split; vm_compute; reflexivity. Qed.

Example samples_30000 : List.length (sample_distances 30000) = 100%nat.
Proof. vm_compute. reflexivity. Qed.

Example samples_120000 : List.length (sample_distances 120000) = 600%nat.
Proof. vm_compute. reflexivity. Qed.

Example range_0_5_2 : Py.range 0 5 2 = [0; 2; 4].
Proof. reflexivity. Qed.

Example range_down : Py.range 5 0 (-2) = [5; 3; 1].
Proof. reflexivity. Qed.

Example locate_two_extents :
  get_tile_path_for_point two_extents 5 5 = inr "tile1"%string /\
  get_tile_path_for_point two_extents 15 5 = inr "tile2"%string /\
  get_tile_path_for_point two_extents 25 5
    = inl (ValueError (NoTileIncludes 25 5)).
Proof. repeat split; reflexivity. Qed.

Example turned_rowcol :
  match affine_invert (dataset_transform turned_dataset) with
  | inr inverse => transform_xy_to_rowcol inverse (1 # 2) (3 # 2) = (1, -1)
  | inl _ => False
  end.
Proof. vm_compute. reflexivity. Qed.

(** ** Rounding to binary64 *)

Lemma round_half_even_cases (n d : Z) :
  Py.round_half_even n d = n / d \/ Py.round_half_even n d = n / d + 1.
Proof.
  unfold Py.round_half_even.
  destruct (2 * (n mod d) ?= d); [destruct (Z.even (n / d)) | |]; auto.
Qed.

Lemma round_half_even_lower (n d k : Z) :
  0 < d -> k * d <= n -> k <= Py.round_half_even n d.
Proof.
  intros Hd Hk.
  assert (k <= n / d) by (apply Z.div_le_lower_bound; lia).
  destruct (round_half_even_cases n d); lia.
Qed.

Lemma round_half_even_upper (n d k : Z) :
  0 < d -> n <= k * d -> Py.round_half_even n d <= k.
Proof.
  intros Hd Hk. unfold Py.round_half_even.
  assert (Hdm := Z.div_mod n d ltac:(lia)).
  assert (Hr := Z.mod_pos_bound n d Hd).
  assert (Hq : n / d <= k) by (apply Z.div_le_upper_bound; nia).
  destruct (Z.compare_spec (2 * (n mod d)) d) as [Heq | Hlt | Hgt].
  - destruct (Z.even (n / d)); [lia |]. nia.
  - lia.
  - nia.
Qed.

(** The rounded integer is within one half of the quotient. *)
Lemma round_half_even_near (n d : Z) :
  0 < d ->
  2 * n - d <= 2 * d * Py.round_half_even n d <= 2 * n + d.
Proof.
  intros Hd. unfold Py.round_half_even.
  assert (Hdm := Z.div_mod n d ltac:(lia)).
  assert (Hr := Z.mod_pos_bound n d Hd).
  destruct (Z.compare_spec (2 * (n mod d)) d) as [Heq | Hlt | Hgt].
  - destruct (Z.even (n / d)); nia.
  - nia.
  - nia.
Qed.

Lemma floor_log2_lower (n d : Z) :
  0 < n -> 0 < d ->
  (0 <= Py.floor_log2 n d -> 2 ^ Py.floor_log2 n d * d <= n)
  /\ (Py.floor_log2 n d < 0 -> d <= 2 ^ (- Py.floor_log2 n d) * n).
Proof.
  intros Hn Hd. unfold Py.floor_log2.
  destruct (Z.log2_spec n Hn) as [Hn1 Hn2].
  destruct (Z.log2_spec d Hd) as [Hd1 Hd2].
  assert (Hln := Z.log2_nonneg n). assert (Hld := Z.log2_nonneg d).
  set (ln := Z.log2 n) in *. set (ld := Z.log2 d) in *.
  destruct (if 0 <=? ln - ld then 2 ^ (ln - ld) * d <=? n
            else d <=? 2 ^ (- (ln - ld)) * n) eqn:Htest.
  - destruct (Z.leb_spec 0 (ln - ld)) as [He0 | He0];
      apply Z.leb_le in Htest; split; auto; lia.
  - clear Htest. split; intros He.
    + assert (Hpow : 2 ^ (ln - ld - 1) * 2 ^ Z.succ ld = 2 ^ ln).
      { rewrite <- Z.pow_add_r by lia. f_equal. lia. }
      assert (0 < 2 ^ (ln - ld - 1)) by (apply Z.pow_pos_nonneg; lia).
      nia.
    + replace (- (ln - ld - 1)) with (Z.succ ld - ln) by lia.
      assert (Hpow : 2 ^ (Z.succ ld - ln) * 2 ^ ln = 2 ^ Z.succ ld).
      { rewrite <- Z.pow_add_r by lia. f_equal. lia. }
      assert (0 < 2 ^ (Z.succ ld - ln)) by (apply Z.pow_pos_nonneg; lia).
      nia.
Qed.

Lemma floor_log2_lt (n d k : Z) :
  0 < n -> 0 < d -> 0 <= k -> n < d * 2 ^ k -> Py.floor_log2 n d < k.
Proof.
  intros Hn Hd Hk Hlt.
  destruct (floor_log2_lower n d Hn Hd) as [Hlow _].
  destruct (Z.lt_ge_cases (Py.floor_log2 n d) k) as [|Hge]; [assumption |].
  exfalso. specialize (Hlow ltac:(lia)).
  assert (2 ^ k <= 2 ^ Py.floor_log2 n d) by (apply Z.pow_le_mono_r; lia).
  nia.
Qed.

(** Below [2 ^ 44] the float nearest to a ratio [n / p] with [p < 1024]
    lies in the same unit interval as the ratio: truncating it gives
    the integer quotient. *)
Lemma binary64_small_ratio (n : Z) (p : positive) :
  0 <= n -> Z.pos p < 1024 -> n < Z.pos p * 2 ^ 44 ->
  Py.int (Py.binary64 (n # p)) = n / Z.pos p
  /\ Py.overflows (Py.binary64 (n # p)) = false.
Proof.
  intros Hn Hp Hlt. unfold Py.binary64. cbn [Qnum Qden].
  destruct (Z.eqb_spec n 0) as [-> | Hn0].
  - split; reflexivity.
  - assert (Hpos : 0 < n) by lia.
    assert (He : Py.floor_log2 (Z.abs n) (Z.pos p) < 44).
    { rewrite Z.abs_eq by lia. apply floor_log2_lt; lia. }
    unfold Py.ulp_exponent.
    set (ex := Z.max (Py.floor_log2 (Z.abs n) (Z.pos p) - 52) (-1074)) in *.
    assert (Hex : ex <= -9) by lia.
    destruct (Z.leb_spec 0 ex) as [Hbad | _]; [lia |].
    set (P := 2 ^ (- ex)).
    assert (HP : 512 <= P).
    { change 512 with (2 ^ 9). apply Z.pow_le_mono_r; lia. }
    set (m := Py.round_half_even (n * P) (Z.pos p)).
    set (k := n / Z.pos p).
    assert (Hdm := Z.div_mod n (Z.pos p) ltac:(lia)).
    assert (Hr := Z.mod_pos_bound n (Z.pos p) ltac:(lia)).
    fold k in Hdm.
    assert (Hk0 : 0 <= k) by (apply Z.div_pos; lia).
    assert (Hlow : k * P <= m).
    { apply round_half_even_lower; [lia |]. nia. }
    assert (Hnear := round_half_even_near (n * P) (Z.pos p) ltac:(lia)).
    fold m in Hnear.
    assert (Hup : m < (k + 1) * P) by nia.
    assert (Hk44 : k < 2 ^ 44).
    { apply Z.div_lt_upper_bound; lia. }
    split.
    + unfold Py.int. cbn [Qnum Qden]. rewrite Z2Pos.id by lia.
      rewrite Z.quot_div_nonneg by nia.
      symmetry. apply Z.div_unique_pos with (r := m - k * P); lia.
    + unfold Py.overflows, Qle_bool, Qabs, inject_Z. cbn [Qnum Qden].
      rewrite Z2Pos.id by lia.
      apply Z.leb_gt. rewrite Z.abs_eq by nia.
      assert (2 ^ 44 < 2 ^ 1024) by (apply Z.pow_lt_mono_r; lia).
      nia.
Qed.

(** Rounding never takes a ratio below an integer [k <= 2 ^ 53] that
    the ratio reaches. *)
Lemma binary64_above_integer (n : Z) (p : positive) (k : Z) :
  0 < k <= 2 ^ 53 -> k * Z.pos p <= n ->
  (inject_Z k <= Py.binary64 (n # p))%Q.
Proof.
  intros Hk Hn. unfold Py.binary64. cbn [Qnum Qden].
  assert (Hpos : 0 < n) by nia.
  destruct (Z.eqb_spec n 0) as [-> | _]; [lia |].
  unfold Py.ulp_exponent. rewrite Z.abs_eq by lia.
  destruct (floor_log2_lower n (Z.pos p) Hpos ltac:(lia)) as [Hlow _].
  set (e := Py.floor_log2 n (Z.pos p)) in *.
  set (ex := Z.max (e - 52) (-1074)).
  destruct (Z.leb_spec 0 ex) as [Hex | Hex].
  - unfold Qle, inject_Z. cbn [Qnum Qden]. rewrite !Z.mul_1_r.
    assert (He : ex = e - 52) by lia.
    assert (HS : 0 < 2 ^ ex) by (apply Z.pow_pos_nonneg; lia).
    specialize (Hlow ltac:(lia)).
    assert (Hpow : 2 ^ e = 2 ^ 52 * 2 ^ ex).
    { rewrite <- Z.pow_add_r by lia. f_equal. lia. }
    assert (Hm : 2 ^ 52 <= Py.round_half_even n (Z.pos p * 2 ^ ex)).
    { apply round_half_even_lower; [nia |]. nia. }
    destruct (Z.eq_dec ex 0) as [H0 | H0].
    + rewrite H0 in *. change (2 ^ 0) with 1 in *. rewrite !Z.mul_1_r.
      apply round_half_even_lower; lia.
    + assert (2 <= 2 ^ ex).
      { change 2 with (2 ^ 1) at 1. apply Z.pow_le_mono_r; lia. }
      change (2 ^ 53) with (2 ^ 52 * 2) in Hk. nia.
  - set (P := 2 ^ (- ex)).
    assert (HP : 0 < P) by (apply Z.pow_pos_nonneg; lia).
    unfold Qle, inject_Z. cbn [Qnum Qden]. rewrite Z2Pos.id by lia.
    rewrite Z.mul_1_r.
    apply round_half_even_lower; [lia |]. nia.
Qed.

Lemma int_above_integer (x : Q) (k : Z) :
  0 <= k -> (inject_Z k <= x)%Q -> k <= Py.int x.
Proof.
  intros Hk. unfold Qle, inject_Z, Py.int. cbn [Qnum Qden].
  rewrite Z.mul_1_r. intros Hle.
  rewrite Z.quot_div_nonneg by nia.
  apply Z.div_le_lower_bound; lia.
Qed.

(** [int(max(x, 1))] is the larger of [int(x)] and 1. *)
Lemma int_max_one (x : Q) : Py.int (Py.max x 1) = Z.max (Py.int x) 1.
Proof.
  unfold Py.max. destruct (Qle_bool 1 x) eqn:Hle.
  - apply Qle_bool_iff in Hle.
    assert (1 <= Py.int x) by (apply int_above_integer; [lia | exact Hle]).
    lia.
  - assert (Hlt : ~ (1 <= x)%Q) by (rewrite <- Qle_bool_iff; congruence).
    unfold Qle, Py.int in *. cbn [Qnum Qden] in *.
    rewrite Z.mul_1_r, Z.mul_1_l in Hlt.
    assert (Z.quot (Qnum x) (Z.pos (Qden x)) <= 0).
    { destruct (Z.le_gt_cases 0 (Qnum x)) as [Hpos | Hneg].
      - rewrite Z.quot_small by lia. lia.
      - replace (Qnum x) with (- - Qnum x) by lia.
        rewrite Z.quot_opp_l by lia.
        assert (0 <= Z.quot (- Qnum x) (Z.pos (Qden x)))
          by (apply Z.quot_pos; lia).
        lia. }
    change (Z.quot 1 1) with 1. lia.
Qed.

Lemma true_div_ratio (a : Z) (p : positive) :
  Py.true_div a (Z.pos p)
  = if Py.overflows (Py.binary64 (a # p)) then inl OverflowError
    else inr (Py.binary64 (a # p)).
Proof.
  unfold Py.true_div. cbn [Z.eqb].
  replace (inject_Z a / inject_Z (Z.pos p))%Q with (Qmake (a * 1) p);
    [| reflexivity].
  now rewrite Z.mul_1_r.
Qed.

(** ** The increment policy *)

(** Below [600 * 2 ^ 44] the two divisions return floats whose
    truncation is the integer quotient. *)
Lemma true_div_small (n : Z) (p : positive) :
  0 <= n -> Z.pos p < 1024 -> n < Z.pos p * 2 ^ 44 ->
  exists quotient,
    Py.true_div n (Z.pos p) = inr quotient
    /\ Py.int quotient = n / Z.pos p.
Proof.
  intros Hn Hp Hlt.
  destruct (binary64_small_ratio n p Hn Hp Hlt) as [Hint Hfinite].
  exists (Py.binary64 (n # p)). rewrite true_div_ratio, Hfinite. now split.
Qed.

Lemma increment_of_nonneg (length : Z) :
  0 <= length < 600 * 2 ^ 44 ->
  determine_length_increment length =
    inr (if length <? 60000 then Z.max (length / 100) 1 else length / 600).
Proof.
  intros [Hlen Hbound]. unfold determine_length_increment.
  destruct (Z.leb_spec 60000 length) as [Hge | Hlt];
    destruct (Z.ltb_spec length 60000) as [Hlt' | Hge']; try lia.
  - destruct (true_div_small length 600 Hlen ltac:(lia) Hbound)
      as (quotient & -> & Hint).
    now rewrite Hint.
  - destruct (true_div_small length 100 Hlen ltac:(lia))
      as (quotient & -> & Hint).
    { change (2 ^ 44) with 17592186044416. lia. }
    now rewrite int_max_one, Hint.
Qed.

(** Whenever the increment is returned it is at least 1: the [range] of
    the main loop never has a zero step. *)
Lemma increment_positive (length increment : Z) :
  determine_length_increment length = inr increment -> 0 < increment.
Proof.
  unfold determine_length_increment.
  destruct (Z.leb_spec 60000 length) as [Hge | Hlt].
  - rewrite (true_div_ratio length 600).
    destruct (Py.overflows _); [discriminate |].
    intros Heq. inversion Heq; subst.
    assert (1 <= Py.int (Py.binary64 (length # 600))); [| lia].
    apply int_above_integer; [lia |].
    apply binary64_above_integer; [| lia].
    split; [lia |]. change 1 with (2 ^ 0). apply Z.pow_le_mono_r; lia.
  - destruct (Py.true_div length 100) as [err | quotient]; [discriminate |].
    intros Heq. inversion Heq; subst. rewrite int_max_one. lia.
Qed.

(** C5, as amended. For a non-negative integer length below
    [600 * 2 ^ 44], the increment is returned and is
    [max(floor(length/100), 1)] below 60000 and [floor(length/600)] from
    60000 on; at length 0 it is 1. *)
Theorem C5_increment_by_cases (length : Z) :
  0 <= length < 600 * 2 ^ 44 ->
  determine_length_increment length =
    inr (if length <? 60000 then Z.max (length / 100) 1 else length / 600)
  /\ determine_length_increment 0 = inr 1.
Proof.
  intros Hlen. split.
  - now apply increment_of_nonneg.
  - vm_compute. reflexivity.
Qed.

Lemma C5_increment_by_cases_witness :
  0 <= 30000 < 600 * 2 ^ 44 /\
  (determine_length_increment 30000 =
     inr (if 30000 <? 60000 then Z.max (30000 / 100) 1 else 30000 / 600)
   /\ determine_length_increment 0 = inr 1).
Proof.
  assert (Hlen : 0 <= 30000 < 600 * 2 ^ 44)
    by (split; [lia | reflexivity]).
  split; [exact Hlen | exact (C5_increment_by_cases 30000 Hlen)].
Defined.

(** C5, as stated, fails: the quotient is a float. At
    [600 * 2 ^ 44 + 599], the first length where it shows, and at
    [600 * 2 ^ 45 - 1], the float nearest to [length / 600] is the next
    integer, and the increment is one more than [floor(length/600)]. *)
Lemma C5_increment_is_one_more_than_the_floor :
  60000 <= 600 * 2 ^ 44 + 599
  /\ determine_length_increment (600 * 2 ^ 44 + 599) = inr (2 ^ 44 + 1)
  /\ (600 * 2 ^ 44 + 599) / 600 = 2 ^ 44
  /\ determine_length_increment (600 * 2 ^ 45 - 1) = inr (2 ^ 45)
  /\ (600 * 2 ^ 45 - 1) / 600 = 2 ^ 45 - 1.
Proof. repeat split; vm_compute; congruence. Qed.

(** ** The walk along the line *)

Lemma range_length_up (stop step : Z) :
  0 < step ->
  Py.range_length 0 stop step = (stop + step - 1) / step
  \/ (stop <= 0 /\ Py.range_length 0 stop step = 0).
Proof.
  intros Hstep. unfold Py.range_length.
  destruct (Z.ltb_spec 0 step); [| lia].
  destruct (Z.leb_spec stop 0) as [Hle | Hgt].
  - right. split; [assumption | reflexivity].
  - left. replace (stop + step - 1) with (stop - 0 - 1 + 1 * step) by lia.
    rewrite Z.div_add by lia. reflexivity.
Qed.

Lemma range_count_ceil (stop step : Z) :
  0 < step ->
  List.length (Py.range 0 stop step) = Z.to_nat ((stop + step - 1) / step).
Proof.
  intros Hstep. unfold Py.range. rewrite length_map, length_seq.
  destruct (range_length_up stop step Hstep) as [-> | [Hle ->]].
  - reflexivity.
  - assert ((stop + step - 1) / step <= 0); [| lia].
    assert ((stop + step - 1) / step < 1); [| lia].
    apply Z.div_lt_upper_bound; lia.
Qed.

Lemma range_nth (stop step : Z) (i : nat) :
  (i < List.length (Py.range 0 stop step))%nat ->
  nth i (Py.range 0 stop step) 0 = Z.of_nat i * step.
Proof.
  unfold Py.range. rewrite length_map, length_seq. intros Hi.
  set (at_index := fun i : nat => 0 + Z.of_nat i * step).
  rewrite (nth_indep _ 0 (at_index 0%nat))
    by (now rewrite length_map, length_seq).
  rewrite map_nth, seq_nth by assumption. unfold at_index. simpl. lia.
Qed.

Lemma range_nth_below (stop step : Z) (i : nat) :
  0 < step ->
  (i < List.length (Py.range 0 stop step))%nat ->
  0 <= Z.of_nat i * step < stop.
Proof.
  intros Hstep Hi. rewrite range_count_ceil in Hi by assumption.
  split; [lia |].
  assert (Hq : Z.of_nat i < (stop + step - 1) / step) by lia.
  assert (Hm : step * ((stop + step - 1) / step) <= stop + step - 1)
    by (apply Z.mul_div_le; lia).
  nia.
Qed.

(** C4, as amended. For an increment [k > 0] the walk over a line of
    integer length [L] has [ceil(L / k)] positions (none when [L <= 0]);
    position [i] is the point at distance [i * k] from the start, and
    every such distance is non-negative and strictly below [L]. *)
Theorem C4_walk_positions
    (interpolate : list point -> Z -> point) (line_geometry : list point)
    (L k : Z) :
  0 < k ->
  List.length (walk interpolate line_geometry L k)
    = Z.to_nat ((L + k - 1) / k)
  /\ forall i : nat,
       (i < List.length (walk interpolate line_geometry L k))%nat ->
       nth i (walk interpolate line_geometry L k) (interpolate line_geometry 0)
         = interpolate line_geometry (Z.of_nat i * k)
       /\ 0 <= Z.of_nat i * k < L.
Proof.
  intros Hk. unfold walk. rewrite length_map. split.
  - now apply range_count_ceil.
  - intros i Hi. split.
    + rewrite map_nth. f_equal. now apply range_nth.
    + now apply range_nth_below.
Qed.

Lemma C4_walk_positions_witness :
  0 < 2 /\
  (List.length (walk eastward_interpolate [(0, 0); (5, 0)]%Q 5 2)
     = Z.to_nat ((5 + 2 - 1) / 2)
   /\ forall i : nat,
        (i < List.length (walk eastward_interpolate [(0, 0); (5, 0)]%Q 5 2))%nat ->
        nth i (walk eastward_interpolate [(0, 0); (5, 0)]%Q 5 2)
              (eastward_interpolate [(0, 0); (5, 0)]%Q 0)
          = eastward_interpolate [(0, 0); (5, 0)]%Q (Z.of_nat i * 2)
        /\ 0 <= Z.of_nat i * 2 < 5).
Proof.
  split; [lia |].
  apply (C4_walk_positions eastward_interpolate [(0, 0); (5, 0)]%Q 5 2). lia.
Defined.

(** C4, as stated, fails: a line of length 5 walked by steps of 2 is
    sampled at 0, 2 and 4, three positions and not [floor(5/2) = 2]. *)
Lemma C4_walk_count_is_not_floor :
  ~ (forall (interpolate : list point -> Z -> point)
            (line_geometry : list point) (L k : Z),
        0 <= L -> 0 < k ->
        List.length (walk interpolate line_geometry L k) = Z.to_nat (L / k)).
Proof.
  intros H.
  specialize (H eastward_interpolate [(0, 0); (5, 0)]%Q 5 2
                ltac:(lia) ltac:(lia)).
  vm_compute in H. discriminate H.
Qed.

(** ** The number of samples *)

Lemma for_each_length {A B} (items : list A) (body : A -> M B) :
  forall w zs w',
    for_each items body w = (inr zs, w') ->
    List.length zs = List.length items.
Proof.
  induction items as [| item rest IH]; intros w zs w' Hrun.
  - inversion Hrun. reflexivity.
  - simpl in Hrun. unfold bind in Hrun.
    destruct (body item w) as [[err | z] w1]; [discriminate |].
    destruct (for_each rest body w1) as [[err | zs'] w2] eqn:Hrest;
      [discriminate |].
    inversion Hrun; subst. simpl. f_equal. eapply IH; eassumption.
Qed.

(** A profile that is returned has one elevation per sampled distance. *)
Lemma profile_length fs pyproj_transform geometry_length interpolate
    dem_folder line old_crs new_crs w profile w' :
  terrain_module fs pyproj_transform geometry_length interpolate
                 dem_folder line old_crs new_crs w = (inr profile, w') ->
  List.length profile =
  List.length
    (sample_distances
       (Py.int (geometry_length
                  (map (pyproj_transform "epsg:4326" "epsg:27700")%string
                       line)))).
Proof.
  unfold terrain_module, bind, lift, transform, sample_distances.
  destruct (load_extents fs dem_folder) as [err | extents]; [discriminate |].
  set (line_geometry := map _ line).
  set (length := Py.int (geometry_length line_geometry)).
  destruct (determine_length_increment length) as [err | increment];
    [discriminate |].
  destruct (increment =? 0); [discriminate |].
  apply for_each_length.
Qed.

(** From 60000 on, 606 steps of the increment cover the length, also
    where the division rounds. *)
Lemma increment_covers_long (length increment : Z) :
  60000 <= length ->
  determine_length_increment length = inr increment ->
  length <= 606 * increment.
Proof.
  intros Hlong.
  destruct (Z.lt_ge_cases length (600 * 2 ^ 44)) as [Hsmall | Hbig].
  - rewrite increment_of_nonneg by lia.
    destruct (Z.ltb_spec length 60000); [lia |].
    intros Heq. inversion Heq; subst.
    assert (Hdm := Z.div_mod length 600 ltac:(lia)).
    assert (Hr := Z.mod_pos_bound length 600 ltac:(lia)).
    assert (100 <= length / 600) by (apply Z.div_le_lower_bound; lia).
    lia.
  - change (2 ^ 44) with 17592186044416 in Hbig.
    unfold determine_length_increment.
    destruct (Z.leb_spec 60000 length); [| lia].
    rewrite (true_div_ratio length 600).
    destruct (Py.overflows _); [discriminate |].
    intros Heq. inversion Heq; subst; clear Heq.
    unfold Py.binary64. cbn [Qnum Qden].
    destruct (Z.eqb_spec length 0) as [| _]; [lia |].
    unfold Py.ulp_exponent. rewrite Z.abs_eq by lia.
    destruct (floor_log2_lower length 600 ltac:(lia) ltac:(lia)) as [Hlow _].
    set (e := Py.floor_log2 length 600) in *.
    set (ex := Z.max (e - 52) (-1074)).
    destruct (Z.leb_spec 0 ex) as [Hex | Hex].
    + assert (He : ex = e - 52) by lia.
      assert (HS : 0 < 2 ^ ex) by (apply Z.pow_pos_nonneg; lia).
      specialize (Hlow ltac:(lia)).
      assert (Hpow : 2 ^ e = 2 ^ 52 * 2 ^ ex).
      { rewrite <- Z.pow_add_r by lia. f_equal. lia. }
      change (2 ^ 52) with 4503599627370496 in Hpow.
      assert (Hnear := round_half_even_near length (600 * 2 ^ ex)
                         ltac:(lia)).
      set (m := Py.round_half_even length (600 * 2 ^ ex)) in *.
      set (S := 2 ^ ex) in *.
      unfold Py.int, inject_Z. cbn [Qnum Qden].
      rewrite Z.quot_1_r. nia.
    + set (P := 2 ^ (- ex)).
      assert (HP : 0 < P) by (apply Z.pow_pos_nonneg; lia).
      assert (Hnear := round_half_even_near (length * P) 600 ltac:(lia)).
      set (m := Py.round_half_even (length * P) 600) in *.
      assert (Hm : 0 <= m) by nia.
      unfold Py.int. cbn [Qnum Qden]. rewrite Z2Pos.id by lia.
      rewrite Z.quot_div_nonneg by lia.
      assert (Hdm := Z.div_mod m P ltac:(lia)).
      assert (Hr := Z.mod_pos_bound m P HP).
      set (inc := m / P) in *.
      nia.
Qed.

(** Whatever the length, the main loop visits at most 606 distances. *)
Lemma sample_count_any_length (length : Z) :
  (List.length (sample_distances length) <= 606)%nat.
Proof.
  unfold sample_distances.
  destruct (determine_length_increment length) as [err | k] eqn:Hinc;
    [simpl; lia |].
  assert (Hpos := increment_positive length k Hinc).
  rewrite range_count_ceil by assumption.
  assert (Hk : length <= 606 * k).
  { destruct (Z.le_gt_cases length 0) as [Hneg | Hlen]; [lia |].
    destruct (Z.lt_ge_cases length 60000) as [Hshort | Hlong].
    - rewrite increment_of_nonneg in Hinc
        by (change (2 ^ 44) with 17592186044416; lia).
      destruct (Z.ltb_spec length 60000); [| lia].
      inversion Hinc; subst.
      assert (Hq := Z.div_mod length 100 ltac:(lia)).
      assert (Hr := Z.mod_pos_bound length 100 ltac:(lia)).
      lia.
    - now apply increment_covers_long. }
  assert ((length + k - 1) / k < 607); [| lia].
  apply Z.div_lt_upper_bound; lia.
Qed.

(** No path gets more than 606 samples. *)
Lemma sample_count_at_most_606 (length : Z) :
  0 <= length -> (List.length (sample_distances length) <= 606)%nat.
Proof. intros _. apply sample_count_any_length. Qed.

(** C1, on the code. A path of integer length 60599 gets the increment
    100 and so 606 samples, six more than the 600 the docstring of
    [determine_length_increment] promises not to pass; the profile
    returned for such a path has 606 elevations. *)
Theorem C1_sample_count_passes_600 :
  determine_length_increment 60599 = inr 100
  /\ List.length (sample_distances 60599) = 606%nat
  /\ exists profile w,
       terrain_module strip_folder same_place eastward_length
                      eastward_interpolate "dem" strip_line
                      "EPSG:4326" "EPSG:27700" initial_world
         = (inr profile, w)
       /\ List.length profile = 606%nat.
Proof.
  split; [vm_compute; reflexivity |]. split; [vm_compute; reflexivity |].
  destruct (terrain_module strip_folder same_place eastward_length
              eastward_interpolate "dem" strip_line
              "EPSG:4326" "EPSG:27700" initial_world)
    as [[err | profile] w] eqn:Hrun.
  - exfalso. revert Hrun. vm_compute. discriminate.
  - exists profile, w. split; [reflexivity |].
    apply profile_length in Hrun. rewrite Hrun. vm_compute. reflexivity.
Qed.

(** ** Locating the tile of a point *)

Lemma contains_in_extent (left_ bottom right_ top x y : Q) :
  Qle_bool left_ x && Qle_bool x right_ && Qle_bool y top && Qle_bool bottom y
    = true
  <-> in_extent (left_, bottom, right_, top) x y.
Proof.
  unfold in_extent. rewrite !andb_true_iff, !Qle_bool_iff. tauto.
Qed.

Lemma locate_found (extents : extents_dict) (x y : Q) (path : string) :
  get_tile_path_for_point extents x y = inr path ->
  exists extent, In (extent, path) extents /\ in_extent extent x y.
Proof.
  induction extents as [| [[[[left_ bottom] right_] top] p] rest IH];
    simpl; intros Hget; [discriminate |].
  destruct (Qle_bool left_ x && Qle_bool x right_
            && Qle_bool y top && Qle_bool bottom y) eqn:Hin.
  - inversion Hget; subst.
    exists (left_, bottom, right_, top). split; [now left |].
    now apply contains_in_extent.
  - destruct (IH Hget) as [extent [Hmem Hext]].
    exists extent. split; [now right | assumption].
Qed.

Lemma locate_raises (extents : extents_dict) (x y : Q) (err : exn) :
  get_tile_path_for_point extents x y = inl err ->
  err = ValueError (NoTileIncludes x y)
  /\ forall extent path, In (extent, path) extents -> ~ in_extent extent x y.
Proof.
  induction extents as [| [[[[left_ bottom] right_] top] p] rest IH];
    simpl; intros Hget.
  - inversion Hget. split; [reflexivity | intros ? ? []].
  - destruct (Qle_bool left_ x && Qle_bool x right_
              && Qle_bool y top && Qle_bool bottom y) eqn:Hin;
      [discriminate |].
    destruct (IH Hget) as [Herr Hnone]. split; [assumption |].
    intros extent path [Hhere | Hthere].
    + inversion Hhere; subst. rewrite <- contains_in_extent. congruence.
    + now apply (Hnone extent path).
Qed.

(** C7. [get_tile_path_for_point] returns a path only together with a
    recorded extent that contains the point, borders included; it raises
    exactly when no recorded extent contains the point, and what it
    raises is the [ValueError] that names the point. *)
Theorem C7_locate (extents : extents_dict) (x y : Q) :
  (forall path,
      get_tile_path_for_point extents x y = inr path ->
      exists extent, In (extent, path) extents /\ in_extent extent x y)
  /\ ((exists err, get_tile_path_for_point extents x y = inl err)
      <-> (forall extent path,
              In (extent, path) extents -> ~ in_extent extent x y))
  /\ (forall err,
        get_tile_path_for_point extents x y = inl err ->
        err = ValueError (NoTileIncludes x y)).
Proof.
  split; [| split].
  - intros path. apply locate_found.
  - split.
    + intros [err Hget]. now apply (locate_raises extents x y err).
    + intros Hnone.
      destruct (get_tile_path_for_point extents x y) as [err | path] eqn:Hget.
      * now exists err.
      * destruct (locate_found extents x y path Hget) as [extent [Hmem Hext]].
        now destruct (Hnone extent path Hmem).
  - intros err Hget. now apply (locate_raises extents x y err).
Qed.

(** ** The tile cache *)

Section Cache.

Variable fs : filesystem.

Lemma load_dataset_wrapped_run (tile_path : string) (w : world) :
  fst (load_dataset_wrapped fs tile_path w) = fresh_decode fs tile_path
  /\ load_dataset_cache (snd (load_dataset_wrapped fs tile_path w))
     = load_dataset_cache w
  /\ reprojected (snd (load_dataset_wrapped fs tile_path w)) = reprojected w
  /\ decoded (snd (load_dataset_wrapped fs tile_path w))
     = match open_raster fs tile_path with
       | Some _ => tile_path :: decoded w
       | None => decoded w
       end.
Proof.
  unfold load_dataset_wrapped, fresh_decode, rasterio_open, dataset_read,
    bind, lift, ret, raise.
  destruct (open_raster fs tile_path) as [ds |]; simpl.
  - destruct (affine_invert (dataset_transform ds)); simpl; auto.
  - auto.
Qed.

Lemma load_dataset_hit (tile_path : string) (value : cached_tile) (w : world) :
  cache_get (load_dataset_cache w) tile_path = Some value ->
  load_dataset fs tile_path w
  = (inr value,
     set_cache ((tile_path, value)
                  :: cache_remove (load_dataset_cache w) tile_path) w).
Proof.
  intros Hhit. unfold load_dataset, lru_cache. now rewrite Hhit.
Qed.

Lemma load_dataset_miss_raises (tile_path : string) (err : exn) (w : world) :
  cache_get (load_dataset_cache w) tile_path = None ->
  fresh_decode fs tile_path = inl err ->
  fst (load_dataset fs tile_path w) = inl err
  /\ load_dataset_cache (snd (load_dataset fs tile_path w))
     = load_dataset_cache w.
Proof.
  intros Hmiss Hdecode. unfold load_dataset, lru_cache. rewrite Hmiss.
  destruct (load_dataset_wrapped_run tile_path w) as (Hres & Hcache & _).
  destruct (load_dataset_wrapped fs tile_path w) as [[err' | value] w'];
    simpl in *.
  - split; congruence.
  - congruence.
Qed.

Lemma load_dataset_miss_returns (tile_path : string) (value : cached_tile)
    (w : world) :
  cache_get (load_dataset_cache w) tile_path = None ->
  fresh_decode fs tile_path = inr value ->
  fst (load_dataset fs tile_path w) = inr value
  /\ load_dataset_cache (snd (load_dataset fs tile_path w))
     = (tile_path, value)
         :: (if (32 <=? List.length (load_dataset_cache w))%nat
             then removelast (load_dataset_cache w)
             else load_dataset_cache w)
  /\ decoded (snd (load_dataset fs tile_path w)) = tile_path :: decoded w.
Proof.
  intros Hmiss Hdecode. unfold load_dataset, lru_cache. rewrite Hmiss.
  destruct (load_dataset_wrapped_run tile_path w)
    as (Hres & Hcache & _ & Hlog).
  assert (Hopen : exists ds, open_raster fs tile_path = Some ds).
  { unfold fresh_decode in Hdecode.
    destruct (open_raster fs tile_path) as [ds |]; [now exists ds |].
    discriminate. }
  destruct Hopen as [ds Hopen]. rewrite Hopen in Hlog.
  destruct (load_dataset_wrapped fs tile_path w) as [[err' | value'] w'];
    simpl in *.
  - congruence.
  - rewrite Hcache, Hlog. split; [congruence |]. split; [| reflexivity].
    f_equal. congruence.
Qed.

(** The result of a call is the resident value or a fresh decode. *)
Lemma load_dataset_result (tile_path : string) (w : world) :
  fst (load_dataset fs tile_path w)
  = match cache_get (load_dataset_cache w) tile_path with
    | Some value => inr value
    | None => fresh_decode fs tile_path
    end.
Proof.
  destruct (cache_get (load_dataset_cache w) tile_path) as [value |] eqn:Hget.
  - now rewrite (load_dataset_hit _ _ _ Hget).
  - destruct (fresh_decode fs tile_path) as [err | value] eqn:Hdecode.
    + now apply load_dataset_miss_raises.
    + now apply load_dataset_miss_returns.
Qed.

End Cache.

(** *** Lists of keys in order of use *)

Lemma filter_other_absent (key : string) (keys : list string) :
  ~ In key keys -> filter (other key) keys = keys.
Proof.
  induction keys as [| k rest IH]; simpl; intros Habsent; [reflexivity |].
  unfold other at 1. destruct (String.eqb_spec k key) as [-> | Hne]; simpl.
  - exfalso. apply Habsent. now left.
  - f_equal. apply IH. intros Hin. apply Habsent. now right.
Qed.

Lemma firstn_filter_absent (key : string) (n : nat) (keys : list string) :
  ~ In key (firstn n keys) ->
  firstn n (filter (other key) keys) = firstn n keys.
Proof.
  revert keys. induction n as [| n IH]; intros keys Habsent; [reflexivity |].
  destruct keys as [| k rest]; [reflexivity |].
  simpl in *. unfold other at 1.
  destruct (String.eqb_spec k key) as [-> | Hne]; simpl.
  - exfalso. apply Habsent. now left.
  - f_equal. apply IH. intros Hin. apply Habsent. now right.
Qed.

Lemma firstn_subset (n : nat) (keys : list string) (key : string) :
  In key (firstn n keys) -> In key keys.
Proof.
  intros Hin. rewrite <- (firstn_skipn n keys). apply in_or_app. now left.
Qed.

Lemma filter_other_cons (key k : string) (keys : list string) :
  filter (other key) (k :: keys)
  = if String.eqb k key then filter (other key) keys
    else k :: filter (other key) keys.
Proof. simpl. unfold other at 1. now destruct (String.eqb k key). Qed.

Lemma firstn_filter_present (key : string) (n : nat) (keys : list string) :
  NoDup keys ->
  In key (firstn (S n) keys) ->
  firstn n (filter (other key) keys) = filter (other key) (firstn (S n) keys).
Proof.
  revert keys. induction n as [| n IH]; intros keys Hnodup Hin.
  - destruct keys as [| k rest]; [destruct Hin |].
    simpl in Hin. destruct Hin as [-> | []].
    simpl. unfold other. rewrite String.eqb_refl. reflexivity.
  - destruct keys as [| k rest]; [destruct Hin |].
    inversion Hnodup as [| ? ? Hfresh Hrest]; subst.
    change (firstn (S (S n)) (k :: rest)) with (k :: firstn (S n) rest) in *.
    rewrite !filter_other_cons.
    destruct (String.eqb_spec k key) as [-> | Hne].
    + rewrite (filter_other_absent key rest Hfresh).
      rewrite filter_other_absent; [reflexivity |].
      intros Hin'. apply Hfresh. eapply firstn_subset. exact Hin'.
    + destruct Hin as [Heq | Hin]; [congruence |].
      change (firstn (S n) (k :: filter (other key) rest))
        with (k :: firstn n (filter (other key) rest)).
      f_equal. now apply IH.
Qed.

Lemma filter_other_NoDup (key : string) (keys : list string) :
  NoDup keys -> NoDup (filter (other key) keys).
Proof. apply NoDup_filter. Qed.

Lemma distinct_NoDup (keys : list string) : NoDup (distinct keys).
Proof.
  induction keys as [| k rest IH]; simpl; constructor.
  - rewrite filter_In. intros [_ Hk]. unfold other in Hk.
    rewrite String.eqb_refl in Hk. discriminate.
  - now apply filter_other_NoDup.
Qed.

Lemma recently_used_snoc (fs : filesystem) (tile_paths : list string)
    (tile_path : string) :
  recently_used fs (tile_paths ++ [tile_path])
  = if loadable fs tile_path
    then tile_path :: filter (other tile_path) (recently_used fs tile_paths)
    else recently_used fs tile_paths.
Proof.
  unfold recently_used. rewrite filter_app. simpl.
  destruct (loadable fs tile_path).
  - rewrite rev_app_distr. reflexivity.
  - now rewrite app_nil_r.
Qed.

(** *** The cache as an association list *)

Lemma cache_get_None (cache : list (string * cached_tile)) (key : string) :
  cache_get cache key = None <-> ~ In key (map fst cache).
Proof.
  induction cache as [| [k v] rest IH]; simpl.
  - tauto.
  - destruct (String.eqb_spec k key) as [-> | Hne].
    + split; [discriminate | intros H; exfalso; apply H; now left].
    + rewrite IH. tauto.
Qed.

Lemma cache_get_In (cache : list (string * cached_tile)) (key : string)
    (value : cached_tile) :
  cache_get cache key = Some value -> In key (map fst cache).
Proof.
  intros Hget.
  destruct (in_dec string_dec key (map fst cache)) as [Hin | Hout];
    [assumption |].
  apply cache_get_None in Hout. congruence.
Qed.

Lemma cache_get_app (front back : list (string * cached_tile)) (key : string)
    (value : cached_tile) :
  cache_get front key = Some value ->
  cache_get (front ++ back) key = Some value.
Proof.
  induction front as [| [k v] rest IH]; simpl; [discriminate |].
  destruct (String.eqb k key); auto.
Qed.

Lemma cache_get_removelast (cache : list (string * cached_tile))
    (key : string) (value : cached_tile) :
  cache_get (removelast cache) key = Some value ->
  cache_get cache key = Some value.
Proof.
  destruct cache as [| entry rest]; [discriminate |].
  intros Hget.
  rewrite (app_removelast_last entry (l := entry :: rest)) by discriminate.
  now apply cache_get_app.
Qed.

Lemma cache_get_remove (cache : list (string * cached_tile))
    (removed key : string) (value : cached_tile) :
  cache_get (cache_remove cache removed) key = Some value ->
  cache_get cache key = Some value /\ key <> removed.
Proof.
  unfold cache_remove.
  induction cache as [| [k v] rest IH]; simpl; [discriminate |].
  destruct (String.eqb_spec k removed) as [-> | Hne]; simpl.
  - intros Hget. destruct (IH Hget) as [Hrest Hkey].
    destruct (String.eqb_spec removed key); [congruence | now split].
  - destruct (String.eqb_spec k key) as [-> | Hne'].
    + intros Hget. now split.
    + apply IH.
Qed.

Lemma cache_remove_keys (cache : list (string * cached_tile)) (key : string) :
  map fst (cache_remove cache key) = filter (other key) (map fst cache).
Proof.
  unfold cache_remove, other.
  induction cache as [| [k v] rest IH]; simpl; [reflexivity |].
  destruct (String.eqb k key); simpl; congruence.
Qed.

Lemma removelast_keys (cache : list (string * cached_tile)) :
  map fst (removelast cache) = removelast (map fst cache).
Proof.
  induction cache as [| entry rest IH]; [reflexivity |].
  destruct rest as [| entry' rest']; [reflexivity |].
  change (fst entry :: map fst (removelast (entry' :: rest'))
          = fst entry :: removelast (map fst (entry' :: rest'))).
  now rewrite IH.
Qed.

(** *** Invariants of the cache *)

Lemma after_gets_snoc (fs : filesystem) (tile_paths : list string)
    (tile_path : string) (w : world) :
  after_gets fs (tile_paths ++ [tile_path]) w
  = snd (load_dataset fs tile_path (after_gets fs tile_paths w)).
Proof.
  revert w. induction tile_paths as [| p rest IH]; intros w; simpl;
    [reflexivity | apply IH].
Qed.

Lemma coherent_initial (fs : filesystem) : cache_coherent fs initial_world.
Proof. intros key value Hget. discriminate Hget. Qed.

Lemma coherent_load_dataset (fs : filesystem) (tile_path : string) (w : world) :
  cache_coherent fs w ->
  cache_coherent fs (snd (load_dataset fs tile_path w)).
Proof.
  intros Hcoh key value.
  destruct (cache_get (load_dataset_cache w) tile_path) as [hit |] eqn:Hget.
  - rewrite (load_dataset_hit fs _ _ _ Hget). simpl.
    destruct (String.eqb_spec tile_path key) as [<- | Hne].
    + intros Heq. inversion Heq; subst. now apply Hcoh.
    + intros Hrest. apply cache_get_remove in Hrest. now apply Hcoh.
  - destruct (fresh_decode fs tile_path) as [err | fresh] eqn:Hdecode.
    + destruct (load_dataset_miss_raises fs _ _ _ Hget Hdecode) as [_ ->].
      apply Hcoh.
    + destruct (load_dataset_miss_returns fs _ _ _ Hget Hdecode)
        as (_ & -> & _).
      destruct (32 <=? List.length (load_dataset_cache w))%nat;
        cbn [cache_get];
        (destruct (String.eqb_spec tile_path key) as [<- | Hne];
         [ intros Heq; inversion Heq; subst; assumption | intros Hrest ]).
      * apply cache_get_removelast in Hrest. now apply Hcoh.
      * now apply Hcoh.
Qed.

Lemma coherent_after_gets (fs : filesystem) (tile_paths : list string)
    (w : world) :
  cache_coherent fs w -> cache_coherent fs (after_gets fs tile_paths w).
Proof.
  revert w. induction tile_paths as [| p rest IH]; intros w Hcoh; simpl;
    [assumption |].
  apply IH. now apply coherent_load_dataset.
Qed.

Lemma firstn_In_le (n m : nat) (keys : list string) (key : string) :
  (n <= m)%nat -> In key (firstn n keys) -> In key (firstn m keys).
Proof.
  intros Hle Hin. apply (firstn_subset n).
  rewrite firstn_firstn, Nat.min_l by assumption. exact Hin.
Qed.

(** After any sequence of calls the cache holds, most recent first, the
    32 most recently used paths among those that load. *)
Lemma cache_keys_after_gets (fs : filesystem) (tile_paths : list string) :
  map fst (load_dataset_cache (after_gets fs tile_paths initial_world))
  = firstn 32 (recently_used fs tile_paths).
Proof.
  induction tile_paths as [| tile_path earlier IH] using rev_ind;
    [reflexivity |].
  rewrite after_gets_snoc, recently_used_snoc.
  assert (Hcoh := coherent_after_gets fs earlier initial_world
                    (coherent_initial fs)).
  set (w := after_gets fs earlier initial_world) in *.
  set (used := recently_used fs earlier) in *.
  assert (Hnodup : NoDup used) by apply distinct_NoDup.
  destruct (cache_get (load_dataset_cache w) tile_path) as [hit |] eqn:Hget.
  - rewrite (load_dataset_hit fs _ _ _ Hget).
    cbn [snd set_cache load_dataset_cache map fst].
    unfold loadable. rewrite (Hcoh _ _ Hget).
    change (firstn 32 (tile_path :: filter (other tile_path) used))
      with (tile_path :: firstn 31 (filter (other tile_path) used)).
    rewrite cache_remove_keys, IH. f_equal. symmetry.
    apply firstn_filter_present; [assumption |].
    rewrite <- IH. eapply cache_get_In. exact Hget.
  - assert (Habsent : ~ In tile_path (firstn 32 used))
      by (rewrite <- IH; now apply cache_get_None).
    unfold loadable.
    destruct (fresh_decode fs tile_path) as [err | fresh] eqn:Hdecode.
    + destruct (load_dataset_miss_raises fs _ _ _ Hget Hdecode) as [_ ->].
      exact IH.
    + destruct (load_dataset_miss_returns fs _ _ _ Hget Hdecode)
        as (_ & -> & _).
      change (firstn 32 (tile_path :: filter (other tile_path) used))
        with (tile_path :: firstn 31 (filter (other tile_path) used)).
      cbn [map fst]. f_equal.
      rewrite firstn_filter_absent.
      2:{ intros Hin. apply Habsent.
          apply (firstn_In_le 31 32); [lia | exact Hin]. }
      assert (Hlen : List.length (load_dataset_cache w)
                     = List.length (firstn 32 used))
        by (now rewrite <- IH, length_map).
      rewrite length_firstn in Hlen.
      destruct (Nat.leb_spec 32 (List.length (load_dataset_cache w)))
        as [Hfull | Hroom].
      * rewrite removelast_keys, IH. apply removelast_firstn. lia.
      * rewrite IH. rewrite !firstn_all2 by lia. reflexivity.
Qed.

(** C9. After every sequence of [load_dataset] calls the cache holds at
    most 32 entries: the 32 most recently used of the paths that load,
    most recent first, so that what is dropped is always the least
    recently used. A call for a resident path returns the stored band
    and inverse transform, which are those of a fresh decode, and reads
    no band again. *)
Theorem C9_tile_cache (fs : filesystem) (tile_paths : list string) :
  (List.length
     (load_dataset_cache (after_gets fs tile_paths initial_world)) <= 32)%nat
  /\ map fst (load_dataset_cache (after_gets fs tile_paths initial_world))
     = firstn 32 (recently_used fs tile_paths)
  /\ forall tile_path value,
       cache_get
         (load_dataset_cache (after_gets fs tile_paths initial_world))
         tile_path = Some value ->
       fst (load_dataset fs tile_path
              (after_gets fs tile_paths initial_world)) = inr value
       /\ decoded (snd (load_dataset fs tile_path
                          (after_gets fs tile_paths initial_world)))
          = decoded (after_gets fs tile_paths initial_world)
       /\ fresh_decode fs tile_path = inr value.
Proof.
  split; [| split].
  - rewrite <- (length_map fst), cache_keys_after_gets.
    apply firstn_le_length.
  - apply cache_keys_after_gets.
  - intros tile_path value Hget.
    rewrite (load_dataset_hit fs _ _ _ Hget).
    cbn [fst snd set_cache decoded].
    repeat split.
    apply (coherent_after_gets fs tile_paths initial_world
             (coherent_initial fs)).
    exact Hget.
Qed.

(** ** Reading the elevation of a point *)

Lemma transform_xy_to_rowcol_floors (inverse : affine) (x y : Q) :
  transform_xy_to_rowcol inverse x y
  = (floored_row inverse x y, floored_col inverse x y).
Proof.
  unfold transform_xy_to_rowcol, floored_row, floored_col, affine_apply,
    Py.floor.
  cbn [fst snd]. f_equal; apply Qfloor_comp; ring.
Qed.

(** On a coherent cache, hit or miss, the value read for a point is the
    cell of the tile's band at the floored row and column, as numpy
    indexes it. *)
Lemma get_value_from_dem_tile_result (fs : filesystem) (w : world)
    (tile_path : string) (tile : dataset) (inverse : affine) (x y : Q) :
  cache_coherent fs w ->
  open_raster fs tile_path = Some tile ->
  affine_invert (dataset_transform tile) = inr inverse ->
  fst (get_value_from_dem_tile fs tile_path x y w)
  = ndarray_getitem (dataset_band1 tile)
      (floored_row inverse x y) (floored_col inverse x y).
Proof.
  intros Hcoh Hopen Hinv.
  assert (Hfresh : fresh_decode fs tile_path
                   = inr (dataset_band1 tile, inverse))
    by (unfold fresh_decode; now rewrite Hopen, Hinv).
  assert (Hload : fst (load_dataset fs tile_path w)
                  = inr (dataset_band1 tile, inverse)).
  { rewrite load_dataset_result.
    destruct (cache_get (load_dataset_cache w) tile_path) as [hit |] eqn:Hget;
      [| assumption].
    apply Hcoh in Hget. congruence. }
  unfold get_value_from_dem_tile, bind, lift.
  destruct (load_dataset fs tile_path w) as [[err | [band transform]] w'];
    simpl in Hload; [discriminate |].
  inversion Hload; subst.
  rewrite transform_xy_to_rowcol_floors. reflexivity.
Qed.

Lemma normalize_index_inside (n i : Z) :
  0 <= i < n -> normalize_index n i = Some i.
Proof.
  intros Hi. unfold normalize_index.
  destruct (Z.leb_spec 0 i), (Z.ltb_spec i n); simpl; try lia. reflexivity.
Qed.



(** C8. The cell [get_value_from_dem_tile] reads is found by inverting
    the transform of the tile and applying the inverse to [(x, y)], in
    floats: with [det = sa*se - sb*sd] not zero and [idet = 1/det], the
    inverse has the coefficients [ra = se*idet], [rb = -sb*idet],
    [rc = -sc*ra - sf*rb], [rd = -sd*idet], [re = sa*idet],
    [rf = -sc*rd - sf*re]; the column is the floor of [x*ra + y*rb + rc]
    and the row the floor of [x*rd + y*re + rf]. When no step of this
    arithmetic overflows and both indices lie inside the grid, the value
    returned is the entry of the band in that row and that column, with
    no interpolation. *)
Theorem C8_value_at_floored_cell (fs : filesystem) (w : world)
    (tile_path : string) (tile : dataset) (x y : Q)
    (line : list Q) (value : Q) :
  let t := dataset_transform tile in
  let p1 := Py.fmul (sa t) (se t) in
  let p2 := Py.fmul (sb t) (sd t) in
  let det := Py.fsub p1 p2 in
  let idet := Py.fdiv 1 det in
  let ra := Py.fmul (se t) idet in
  let rb := Py.fmul (- sb t) idet in
  let c1 := Py.fmul (- sc t) ra in
  let c2 := Py.fmul (sf t) rb in
  let rc := Py.fsub c1 c2 in
  let rd := Py.fmul (- sd t) idet in
  let re := Py.fmul (sa t) idet in
  let f1 := Py.fmul (- sc t) rd in
  let f2 := Py.fmul (sf t) re in
  let rf := Py.fsub f1 f2 in
  let x0 := Py.fadd x 0 in
  let y0 := Py.fsub y 0 in
  let xa := Py.fmul x0 ra in
  let yb := Py.fmul y0 rb in
  let xd := Py.fmul x0 rd in
  let ye := Py.fmul y0 re in
  let col := Qfloor (Py.fadd (Py.fadd xa yb) rc) in
  let row := Qfloor (Py.fadd (Py.fadd xd ye) rf) in
  cache_coherent fs w ->
  open_raster fs tile_path = Some tile ->
  ~ (det == 0)%Q ->
  Forall (fun v => Py.overflows v = false)
    [p1; p2; det; idet; ra; rb; c1; c2; rc; rd; re; f1; f2; rf;
     x0; y0; xa; yb; Py.fadd xa yb; xd; ye; Py.fadd xd ye] ->
  0 <= row < Z.of_nat (List.length (rows (dataset_band1 tile))) ->
  0 <= col < Z.of_nat (List.length (hd [] (rows (dataset_band1 tile)))) ->
  nth_error (rows (dataset_band1 tile)) (Z.to_nat row) = Some line ->
  nth_error line (Z.to_nat col) = Some value ->
  fst (get_value_from_dem_tile fs tile_path x y w) = inr value.
Proof.
  intros t p1 p2 det idet ra rb c1 c2 rc rd re f1 f2 rf x0 y0 xa yb xd ye
    col row Hcoh Hopen Hdet _ Hrow Hcol Hline Hvalue.
  assert (Hinv : affine_invert (dataset_transform tile)
                 = inr (Affine ra rb rc rd re rf)).
  { unfold affine_invert, determinant. fold t. fold p1 p2. fold det.
    destruct (Qeq_bool det 0) eqn:Hzero;
      [apply Qeq_bool_iff in Hzero; contradiction | reflexivity]. }
  rewrite (get_value_from_dem_tile_result fs w tile_path tile
             (Affine ra rb rc rd re rf) x y) by assumption.
  change (floored_row (Affine ra rb rc rd re rf) x y) with row.
  change (floored_col (Affine ra rb rc rd re rf) x y) with col.
  unfold ndarray_getitem, shape0, shape1.
  rewrite (normalize_index_inside _ _ Hrow), (normalize_index_inside _ _ Hcol).
  unfold cell. f_equal.
  rewrite (nth_error_nth _ _ [] Hline). now apply nth_error_nth.
Qed.

Lemma C8_value_at_floored_cell_witness :
  cache_coherent strip_folder initial_world
  /\ open_raster strip_folder "dem/strip.tif" = Some strip_dataset
  /\ ~ (Py.fsub (Py.fmul 40000 (-50)) (Py.fmul 0 0) == 0)%Q
  /\ 0 <= 1 < 2
  /\ 0 <= 1 < 3
  /\ nth_error (rows strip_band) 1 = Some [40; 50; 60]%Q
  /\ nth_error [40; 50; 60]%Q 1 = Some 50%Q
  /\ fst (get_value_from_dem_tile strip_folder "dem/strip.tif" 50000 10
            initial_world) = inr 50%Q.
Proof.
  assert (Hcoh : cache_coherent strip_folder initial_world)
    by apply coherent_initial.
  assert (Hopen : open_raster strip_folder "dem/strip.tif" = Some strip_dataset)
    by reflexivity.
  assert (Hdet : ~ (Py.fsub (Py.fmul 40000 (-50)) (Py.fmul 0 0) == 0)%Q)
    by (vm_compute; discriminate).
  assert (Hrow : 0 <= 1 < 2) by lia.
  assert (Hcol : 0 <= 1 < 3) by lia.
  assert (Hline : nth_error (rows strip_band) 1 = Some [40; 50; 60]%Q)
    by reflexivity.
  assert (Hvalue : nth_error [40; 50; 60]%Q 1 = Some 50%Q) by reflexivity.
  repeat (split; [assumption |]).
  refine (C8_value_at_floored_cell strip_folder initial_world "dem/strip.tif"
            strip_dataset 50000 10 [40; 50; 60]%Q 50 Hcoh Hopen Hdet
            _ _ _ _ _).
  - repeat constructor.
  - vm_compute. split; congruence.
  - vm_compute. split; congruence.
  - vm_compute. reflexivity.
  - vm_compute. reflexivity.
Defined.

Example strip_value_50000_10 :
  fst (get_value_from_dem_tile strip_folder "dem/strip.tif" 50000 10
         initial_world) = inr 50%Q.
Proof. vm_compute. reflexivity. Qed.







(** ** The pipeline *)

Lemma range_empty (stop step : Z) :
  0 < step -> stop <= 0 -> Py.range 0 stop step = [].
Proof.
  intros Hstep Hstop. unfold Py.range, Py.range_length.
  destruct (Z.ltb_spec 0 step); [| lia].
  destruct (Z.leb_spec stop 0); [reflexivity | lia].
Qed.

Lemma range_starts_at_zero (stop step : Z) :
  0 < step -> 0 < stop ->
  exists later, Py.range 0 stop step = 0 :: later.
Proof.
  intros Hstep Hstop. unfold Py.range, Py.range_length.
  destruct (Z.ltb_spec 0 step); [| lia].
  destruct (Z.leb_spec stop 0); [lia |].
  assert (Hq : 0 <= (stop - 0 - 1) / step) by (apply Z.div_pos; lia).
  destruct (Z.to_nat ((stop - 0 - 1) / step + 1)) as [| n] eqn:Hn; [lia |].
  simpl. eexists. reflexivity.
Qed.

(** C6, as amended. Over a folder without tiles [load_extents] returns an
    empty index and raises nothing. The pipeline then returns the empty
    profile when the integer length of the projected line is zero, and
    otherwise raises, at the first position, the [ValueError] of
    [get_tile_path_for_point] for that position; in both cases no tile
    is read. (A length whose division in [determine_length_increment]
    raises, one beyond every float, ends the run with that error
    instead.) *)
Theorem C6_empty_folder (fs : filesystem)
    (pyproj_transform : string -> string -> point -> point)
    (geometry_length : list point -> Q)
    (interpolate : list point -> Z -> point)
    (dem_folder : string) (line : list point) (old_crs new_crs : string)
    (w : world) :
  glob_tif fs dem_folder = [] ->
  load_extents fs dem_folder = inr []
  /\ fst (terrain_module fs pyproj_transform geometry_length interpolate
            dem_folder line old_crs new_crs w)
     = (let line_geometry :=
          map (pyproj_transform "epsg:4326" "epsg:27700")%string line in
        match
          determine_length_increment (Py.int (geometry_length line_geometry))
        with
        | inl err => inl err
        | inr _ =>
            if Py.int (geometry_length line_geometry) <=? 0 then inr []
            else
              let '(xp, yp) :=
                pyproj_transform "epsg:27700"%string "epsg:4326"%string
                  (interpolate line_geometry 0) in
              inl (ValueError (NoTileIncludes xp yp))
        end)
  /\ decoded (snd (terrain_module fs pyproj_transform geometry_length
                     interpolate dem_folder line old_crs new_crs w))
     = decoded w.
Proof.
  intros Hglob.
  assert (Hextents : load_extents fs dem_folder = inr [])
    by (unfold load_extents; now rewrite Hglob).
  split; [assumption |].
  unfold terrain_module, bind, lift, transform. rewrite Hextents.
  set (line_geometry := map _ line).
  set (length := Py.int (geometry_length line_geometry)).
  cbv zeta.
  destruct (determine_length_increment length) as [err | increment] eqn:Hdli;
    [split; reflexivity |].
  assert (Hinc := increment_positive length increment Hdli).
  destruct (Z.eqb_spec increment 0) as [H0 | _]; [lia |].
  destruct (Z.leb_spec length 0) as [Hle | Hgt].
  - rewrite range_empty by assumption. split; reflexivity.
  - destruct (range_starts_at_zero length _ Hinc Hgt) as [later ->].
    cbn [for_each]. unfold bind, sample_at, bind, transform_point, lift.
    destruct (pyproj_transform "epsg:27700"%string "epsg:4326"%string
                (interpolate line_geometry 0)) as [xp yp].
    split; reflexivity.
Qed.

Lemma C6_empty_folder_witness :
  glob_tif empty_folder "dem" = []
  /\ load_extents empty_folder "dem" = inr []
  /\ fst (terrain_module empty_folder same_place eastward_length
            eastward_interpolate "dem" [(0, 0); (3, 0)]%Q
            "EPSG:4326" "EPSG:27700" initial_world)
     = inl (ValueError (NoTileIncludes (0 + 0) 0)).
Proof.
  split; [reflexivity |].
  destruct (C6_empty_folder empty_folder same_place eastward_length
              eastward_interpolate "dem" [(0, 0); (3, 0)]%Q
              "EPSG:4326" "EPSG:27700" initial_world eq_refl)
    as (Hextents & Hrun & _).
  split; [exact Hextents | exact Hrun].
Defined.

(** C6, as stated, fails: over a folder without tiles, a line shorter
    than one unit is processed to the end and an empty profile is
    returned; nothing is raised. *)
Lemma C6_empty_folder_raises_nothing :
  glob_tif empty_folder "dem" = []
  /\ terrain_module empty_folder same_place eastward_length
       eastward_interpolate "dem" [(0, 0); (1 # 2, 0)]%Q
       "EPSG:4326" "EPSG:27700" initial_world
     = (inr [],
        World [] [] [("epsg:4326"%string, "epsg:27700"%string)]).
Proof. split; reflexivity. Qed.

(** *** The projections the pipeline applies *)

Lemma load_dataset_reprojected (fs : filesystem) (tile_path : string)
    (w : world) :
  reprojected (snd (load_dataset fs tile_path w)) = reprojected w.
Proof.
  unfold load_dataset, lru_cache.
  destruct (cache_get (load_dataset_cache w) tile_path); [reflexivity |].
  destruct (load_dataset_wrapped_run fs tile_path w) as (_ & _ & Hlog & _).
  destruct (load_dataset_wrapped fs tile_path w) as [[err | value] w'];
    simpl in *; assumption.
Qed.

Lemma sample_at_reprojected (fs : filesystem)
    (pyproj_transform : string -> string -> point -> point)
    (interpolate : list point -> Z -> point)
    (extents : extents_dict) (line_geometry : list point)
    (currentdistance : Z) (w : world) :
  reprojected (snd (sample_at fs pyproj_transform interpolate extents
                      line_geometry currentdistance w))
  = ("epsg:27700"%string, "epsg:4326"%string) :: reprojected w.
Proof.
  unfold sample_at, bind, transform_point, lift, get_value_from_dem_tile, bind.
  destruct (pyproj_transform _ _ _) as [xp yp].
  destruct (get_tile_path_for_point extents xp yp) as [err | tile_path];
    [reflexivity |].
  set (w1 := World _ _ _).
  assert (Hlog := load_dataset_reprojected fs tile_path w1).
  destruct (load_dataset fs tile_path w1) as [[err | [band inverse]] w2];
    cbn [snd] in Hlog; [exact Hlog |].
  destruct (transform_xy_to_rowcol inverse xp yp) as [row col].
  unfold lift. destruct (ndarray_getitem band row col); exact Hlog.
Qed.

Lemma for_each_reprojected (fs : filesystem)
    (pyproj_transform : string -> string -> point -> point)
    (interpolate : list point -> Z -> point)
    (extents : extents_dict) (line_geometry : list point)
    (distances : list Z) (w : world) :
  exists n : nat,
    (n <= List.length distances)%nat
    /\ reprojected
         (snd (for_each distances
                 (sample_at fs pyproj_transform interpolate extents
                    line_geometry) w))
       = repeat ("epsg:27700"%string, "epsg:4326"%string) n ++ reprojected w.
Proof.
  revert w. induction distances as [| distance rest IH]; intros w.
  - exists 0%nat. split; [lia | reflexivity].
  - cbn [for_each]. unfold bind at 1.
    assert (Hfirst := sample_at_reprojected fs pyproj_transform interpolate
                        extents line_geometry distance w).
    destruct (sample_at fs pyproj_transform interpolate extents line_geometry
                distance w) as [[err | z] w1]; simpl in Hfirst.
    + exists 1%nat. split; [simpl; lia | exact Hfirst].
    + destruct (IH w1) as (n & Hn & Hrest).
      exists (S n). split; [simpl; lia |].
      unfold bind.
      assert (Hlog : reprojected
                       (snd (for_each rest
                               (sample_at fs pyproj_transform interpolate
                                  extents line_geometry) w1))
                     = repeat ("epsg:27700"%string, "epsg:4326"%string) (S n)
                         ++ reprojected w).
      { rewrite Hrest, Hfirst.
        change (?p :: reprojected w) with ([p] ++ reprojected w).
        now rewrite app_assoc, <- repeat_cons. }
      destruct (for_each rest _ w1) as [[err | zs] w2]; exact Hlog.
Qed.

(** C2, on the code. [terrain_module] never reads [old_crs] and
    [new_crs]: it returns the same result and leaves the same process
    whatever they are; once the extents are loaded, the line is taken
    from [epsg:4326] to [epsg:27700] and every position back from
    [epsg:27700] to [epsg:4326]. Called for [EPSG:4326] and
    [EPSG:32630], it still projects to [epsg:27700]. *)
Theorem C2_crs_arguments_are_not_used :
  (forall fs pyproj_transform geometry_length interpolate dem_folder line
          old_crs new_crs old_crs' new_crs' w,
      terrain_module fs pyproj_transform geometry_length interpolate
                     dem_folder line old_crs new_crs w
      = terrain_module fs pyproj_transform geometry_length interpolate
                       dem_folder line old_crs' new_crs' w)
  /\ (forall fs pyproj_transform geometry_length interpolate dem_folder line
             old_crs new_crs w extents,
         load_extents fs dem_folder = inr extents ->
         exists n : nat,
           reprojected
             (snd (terrain_module fs pyproj_transform geometry_length
                     interpolate dem_folder line old_crs new_crs w))
           = repeat ("epsg:27700"%string, "epsg:4326"%string) n
               ++ ("epsg:4326"%string, "epsg:27700"%string)
               :: reprojected w)
  /\ reprojected
       (snd (terrain_module strip_folder same_place eastward_length
               eastward_interpolate "dem" strip_line
               "EPSG:4326" "EPSG:32630" initial_world))
     = repeat ("epsg:27700"%string, "epsg:4326"%string) 606
         ++ [("epsg:4326"%string, "epsg:27700"%string)].
Proof.
  split; [reflexivity |]. split; [| vm_compute; reflexivity].
  intros fs pyproj_transform geometry_length interpolate dem_folder line
    old_crs new_crs w extents Hextents.
  unfold terrain_module, bind, lift, transform. rewrite Hextents.
  set (line_geometry := map _ line).
  set (length := Py.int (geometry_length line_geometry)).
  set (w1 := World _ _ _).
  destruct (determine_length_increment length) as [err | increment] eqn:Hdli;
    [now exists 0%nat |].
  assert (Hinc := increment_positive length increment Hdli).
  destruct (Z.eqb_spec increment 0) as [H0 | _]; [lia |].
  destruct (for_each_reprojected fs pyproj_transform interpolate extents
              line_geometry (Py.range 0 length increment) w1)
    as (n & _ & Hlog).
  exists n. exact Hlog.
Qed.

(** *** The cache stays coherent along the pipeline *)

Lemma coherent_same_cache (fs : filesystem) (w w' : world) :
  load_dataset_cache w' = load_dataset_cache w ->
  cache_coherent fs w -> cache_coherent fs w'.
Proof. unfold cache_coherent. intros ->. auto. Qed.

Lemma coherent_get_value_from_dem_tile (fs : filesystem) (tile_path : string)
    (x y : Q) (w : world) :
  cache_coherent fs w ->
  cache_coherent fs (snd (get_value_from_dem_tile fs tile_path x y w)).
Proof.
  intros Hcoh. apply (coherent_load_dataset fs tile_path) in Hcoh.
  unfold get_value_from_dem_tile, bind.
  destruct (load_dataset fs tile_path w) as [[err | [band inverse]] w'];
    cbn [snd] in Hcoh; [exact Hcoh |].
  destruct (transform_xy_to_rowcol inverse x y) as [row col]. exact Hcoh.
Qed.

Lemma coherent_sample_at (fs : filesystem)
    (pyproj_transform : string -> string -> point -> point)
    (interpolate : list point -> Z -> point)
    (extents : extents_dict) (line_geometry : list point)
    (currentdistance : Z) (w : world) :
  cache_coherent fs w ->
  cache_coherent fs
    (snd (sample_at fs pyproj_transform interpolate extents line_geometry
            currentdistance w)).
Proof.
  intros Hcoh. unfold sample_at, bind, transform_point, lift.
  destruct (pyproj_transform _ _ _) as [xp yp].
  set (w1 := World _ _ _).
  assert (Hcoh1 : cache_coherent fs w1)
    by (now apply (coherent_same_cache fs w)).
  destruct (get_tile_path_for_point extents xp yp) as [err | tile_path];
    [exact Hcoh1 |].
  apply (coherent_get_value_from_dem_tile fs tile_path xp yp) in Hcoh1.
  destruct (get_value_from_dem_tile fs tile_path xp yp w1) as [[err | z] w2];
    exact Hcoh1.
Qed.

Lemma coherent_for_each (fs : filesystem)
    (pyproj_transform : string -> string -> point -> point)
    (interpolate : list point -> Z -> point)
    (extents : extents_dict) (line_geometry : list point)
    (distances : list Z) (w : world) :
  cache_coherent fs w ->
  cache_coherent fs
    (snd (for_each distances
            (sample_at fs pyproj_transform interpolate extents line_geometry)
            w)).
Proof.
  revert w. induction distances as [| distance rest IH]; intros w Hcoh;
    [exact Hcoh |].
  cbn [for_each]. unfold bind at 1.
  apply (coherent_sample_at fs pyproj_transform interpolate extents
           line_geometry distance) in Hcoh.
  destruct (sample_at fs pyproj_transform interpolate extents line_geometry
              distance w) as [[err | z] w1]; cbn [snd] in Hcoh; [exact Hcoh |].
  apply IH in Hcoh. unfold bind.
  destruct (for_each rest _ w1) as [[err | zs] w2]; exact Hcoh.
Qed.

(** Whatever [terrain_module] returns or raises, it leaves a cache whose
    entries are fresh decodes of their paths. *)
Lemma coherent_terrain_module (fs : filesystem)
    (pyproj_transform : string -> string -> point -> point)
    (geometry_length : list point -> Q)
    (interpolate : list point -> Z -> point)
    (dem_folder : string) (line : list point) (old_crs new_crs : string)
    (w : world) :
  cache_coherent fs w ->
  cache_coherent fs
    (snd (terrain_module fs pyproj_transform geometry_length interpolate
            dem_folder line old_crs new_crs w)).
Proof.
  intros Hcoh. unfold terrain_module, bind, lift, transform.
  destruct (load_extents fs dem_folder) as [err | extents]; [exact Hcoh |].
  set (line_geometry := map _ line).
  set (w1 := World _ _ _).
  assert (Hcoh1 : cache_coherent fs w1)
    by (now apply (coherent_same_cache fs w)).
  destruct (determine_length_increment _) as [err | increment];
    [exact Hcoh1 |].
  destruct (increment =? 0); [exact Hcoh1 |].
  now apply coherent_for_each.
Qed.

(** *** Thirty-three tiles *)

Example eviction_of_the_oldest :
  map fst (load_dataset_cache
             (after_gets open_folder (tile_names 33) initial_world))
    = rev (skipn 1 (tile_names 33))
  /\ cache_get (load_dataset_cache
                  (after_gets open_folder (tile_names 33) initial_world))
       "A" = None
  /\ List.length
       (decoded (after_gets open_folder (tile_names 33) initial_world))
     = 33%nat
  /\ List.length
       (decoded (snd (load_dataset open_folder "B"
                        (after_gets open_folder (tile_names 33)
                           initial_world))))
     = 33%nat
  /\ List.length
       (decoded (snd (load_dataset open_folder "A"
                        (after_gets open_folder (tile_names 33)
                           initial_world))))
     = 34%nat.
Proof. repeat split; vm_compute; reflexivity. Qed.

(** * Further properties of the module *)

(** ** How many samples a length gets *)

Lemma sample_count_ceil (length increment : Z) :
  determine_length_increment length = inr increment ->
  List.length (sample_distances length)
  = Z.to_nat ((length + increment - 1) / increment).
Proof.
  intros Hinc. unfold sample_distances. rewrite Hinc.
  apply range_count_ceil. now apply (increment_positive length).
Qed.

(** The number of samples by length, for lengths below [600 * 2 ^ 44]:
    a path shorter than 100 is sampled at every unit; from 100 up to
    60000 it gets between 100 and 199 samples; from 60000 on it gets
    between 600 and 606. *)
Theorem sample_count_by_length (length : Z) :
  0 <= length < 600 * 2 ^ 44 ->
  (length < 100 ->
     Z.of_nat (List.length (sample_distances length)) = length)
  /\ (100 <= length < 60000 ->
        100 <= Z.of_nat (List.length (sample_distances length)) <= 199)
  /\ (60000 <= length ->
        600 <= Z.of_nat (List.length (sample_distances length)) <= 606).
Proof.
  intros Hlen.
  assert (Hinc := increment_of_nonneg length Hlen).
  set (k := if length <? 60000 then Z.max (length / 100) 1 else length / 600)
    in *.
  assert (Hpos := increment_positive length k Hinc).
  rewrite (sample_count_ceil length k Hinc).
  assert (Hq : 0 <= (length + k - 1) / k) by (apply Z.div_pos; lia).
  rewrite Z2Nat.id by assumption. subst k.
  split; [| split].
  - intros Hshort.
    destruct (Z.ltb_spec length 60000); [| lia].
    rewrite (Z.div_small length 100) by lia. change (Z.max 0 1) with 1.
    replace (length + 1 - 1) with length by lia. apply Z.div_1_r.
  - intros [Hlo Hhi].
    destruct (Z.ltb_spec length 60000); [| lia].
    assert (Hdm := Z.div_mod length 100 ltac:(lia)).
    assert (Hr := Z.mod_pos_bound length 100 ltac:(lia)).
    assert (1 <= length / 100) by (apply Z.div_le_lower_bound; lia).
    rewrite Z.max_l in * by lia.
    split.
    + apply Z.div_le_lower_bound; lia.
    + assert ((length + length / 100 - 1) / (length / 100) < 200); [| lia].
      apply Z.div_lt_upper_bound; lia.
  - intros Hlong.
    destruct (Z.ltb_spec length 60000); [lia |].
    assert (Hdm := Z.div_mod length 600 ltac:(lia)).
    assert (Hr := Z.mod_pos_bound length 600 ltac:(lia)).
    assert (100 <= length / 600) by (apply Z.div_le_lower_bound; lia).
    split.
    + apply Z.div_le_lower_bound; lia.
    + assert ((length + length / 600 - 1) / (length / 600) < 607); [| lia].
      apply Z.div_lt_upper_bound; lia.
Qed.

Lemma sample_count_by_length_witness :
  0 <= 60599 < 600 * 2 ^ 44
  /\ ((60599 < 100 ->
         Z.of_nat (List.length (sample_distances 60599)) = 60599)
      /\ (100 <= 60599 < 60000 ->
            100 <= Z.of_nat (List.length (sample_distances 60599)) <= 199)
      /\ (60000 <= 60599 ->
            600 <= Z.of_nat (List.length (sample_distances 60599)) <= 606)).
Proof.
  assert (Hlen : 0 <= 60599 < 600 * 2 ^ 44) by (split; [lia | reflexivity]).
  split; [exact Hlen | exact (sample_count_by_length 60599 Hlen)].
Defined.

(** Below [600 * 2 ^ 44] the count is exactly 100, or exactly 600, when
    the length is a multiple of 100 below 60000, or of 600 from 60000
    on. *)
Theorem sample_count_of_multiples (length : Z) :
  (100 <= length < 60000 /\ length mod 100 = 0
   \/ 60000 <= length < 600 * 2 ^ 44 /\ length mod 600 = 0) ->
  Z.of_nat (List.length (sample_distances length))
  = (if length <? 60000 then 100 else 600).
Proof.
  intros Hcase.
  assert (Hlen : 0 <= length < 600 * 2 ^ 44).
  { change (2 ^ 44) with 17592186044416 in *. lia. }
  assert (Hinc := increment_of_nonneg length Hlen).
  set (k := if length <? 60000 then Z.max (length / 100) 1 else length / 600)
    in *.
  assert (Hpos := increment_positive length k Hinc).
  rewrite (sample_count_ceil length k Hinc).
  assert (Hq : 0 <= (length + k - 1) / k) by (apply Z.div_pos; lia).
  rewrite Z2Nat.id by assumption. subst k.
  destruct (Z.ltb_spec length 60000) as [Hlt | Hge].
  - destruct Hcase as [[Hrange Hmod] | [Hrange _]]; [| lia].
    assert (Hdm := Z.div_mod length 100 ltac:(lia)).
    assert (1 <= length / 100) by (apply Z.div_le_lower_bound; lia).
    rewrite Z.max_l in * by lia.
    replace (length + length / 100 - 1)
      with (length / 100 - 1 + 100 * (length / 100)) by lia.
    rewrite Z.div_add by lia. rewrite Z.div_small by lia. reflexivity.
  - destruct Hcase as [[Hrange _] | [Hrange Hmod]]; [lia |].
    assert (Hdm := Z.div_mod length 600 ltac:(lia)).
    assert (100 <= length / 600) by (apply Z.div_le_lower_bound; lia).
    replace (length + length / 600 - 1)
      with (length / 600 - 1 + 600 * (length / 600)) by lia.
    rewrite Z.div_add by lia. rewrite Z.div_small by lia. reflexivity.
Qed.

Lemma sample_count_of_multiples_witness :
  (100 <= 120000 < 60000 /\ 120000 mod 100 = 0
   \/ 60000 <= 120000 < 600 * 2 ^ 44 /\ 120000 mod 600 = 0)
  /\ Z.of_nat (List.length (sample_distances 120000))
     = (if 120000 <? 60000 then 100 else 600).
Proof.
  assert (H : 100 <= 120000 < 60000 /\ 120000 mod 100 = 0
              \/ 60000 <= 120000 < 600 * 2 ^ 44 /\ 120000 mod 600 = 0)
    by (right; split; [split; [lia | reflexivity] | reflexivity]).
  split; [exact H | exact (sample_count_of_multiples 120000 H)].
Defined.

(** Beyond the bound the count of a multiple of 600 can be 601: the
    rounded quotient is not the exact one. *)
Example sample_count_of_a_large_multiple :
  (600 * (2 ^ 53 + 1)) mod 600 = 0
  /\ determine_length_increment (600 * (2 ^ 53 + 1)) = inr (2 ^ 53)
  /\ List.length (sample_distances (600 * (2 ^ 53 + 1))) = 601%nat.
Proof. repeat split; vm_compute; reflexivity. Qed.

(** Rounding keeps a ratio within a power of two that bounds it. *)
Lemma binary64_bounded (n : Z) (p : positive) (K : Z) :
  0 <= K -> - (2 ^ K * Z.pos p) <= n <= 2 ^ K * Z.pos p ->
  (- inject_Z (2 ^ K) <= Py.binary64 (n # p) <= inject_Z (2 ^ K))%Q.
Proof.
  intros HK Hn. unfold Py.binary64. cbn [Qnum Qden].
  assert (HpK : 0 < 2 ^ K) by (apply Z.pow_pos_nonneg; lia).
  destruct (Z.eqb_spec n 0) as [-> | Hn0].
  - unfold Qle, Qopp, inject_Z. cbn [Qnum Qden]. lia.
  - assert (Habs : 0 < Z.abs n) by lia.
    assert (He : Py.floor_log2 (Z.abs n) (Z.pos p) < K + 1).
    { apply floor_log2_lt; try lia.
      rewrite Z.pow_add_r by lia. change (2 ^ 1) with 2. lia. }
    unfold Py.ulp_exponent.
    set (ex := Z.max (Py.floor_log2 (Z.abs n) (Z.pos p) - 52) (-1074)).
    destruct (Z.leb_spec 0 ex) as [Hex | Hex].
    + assert (HS : 0 < 2 ^ ex) by (apply Z.pow_pos_nonneg; lia).
      assert (Hpow : 2 ^ K = 2 ^ (K - ex) * 2 ^ ex).
      { rewrite <- Z.pow_add_r by lia. f_equal. lia. }
      assert (HT : 0 < 2 ^ (K - ex)) by (apply Z.pow_pos_nonneg; lia).
      assert (Hup : Py.round_half_even n (Z.pos p * 2 ^ ex) <= 2 ^ (K - ex)).
      { apply round_half_even_upper; [nia |]. nia. }
      assert (Hlow : - 2 ^ (K - ex) <= Py.round_half_even n (Z.pos p * 2 ^ ex)).
      { apply round_half_even_lower; [nia |]. nia. }
      unfold Qle, Qopp, inject_Z. cbn [Qnum Qden]. rewrite !Z.mul_1_r.
      split; nia.
    + set (P := 2 ^ (- ex)).
      assert (HP : 0 < P) by (apply Z.pow_pos_nonneg; lia).
      assert (Hup : Py.round_half_even (n * P) (Z.pos p) <= 2 ^ K * P).
      { apply round_half_even_upper; [lia |]. nia. }
      assert (Hlow : - (2 ^ K * P) <= Py.round_half_even (n * P) (Z.pos p)).
      { apply round_half_even_lower; [lia |]. nia. }
      unfold Qle, Qopp, inject_Z. cbn [Qnum Qden].
      rewrite Z2Pos.id by lia. rewrite !Z.mul_1_r.
      split; lia.
Qed.

(** Dividing an int that a float can hold by an int greater than one
    never overflows. *)
Lemma true_div_returns (a : Z) (p : positive) :
  Z.abs a < 2 ^ 1024 -> 2 <= Z.pos p ->
  Py.true_div a (Z.pos p) = inr (Py.binary64 (a # p)).
Proof.
  intros Ha Hp. rewrite true_div_ratio.
  assert (HK : 0 < 2 ^ 1023) by (apply Z.pow_pos_nonneg; lia).
  assert (Hpow : 2 ^ 1024 = 2 * 2 ^ 1023) by reflexivity.
  destruct (binary64_bounded a p 1023 ltac:(lia)) as [Hlow Hup]; [nia |].
  replace (Py.overflows (Py.binary64 (a # p))) with false; [reflexivity |].
  symmetry. unfold Py.overflows.
  destruct (Qle_bool (inject_Z (2 ^ 1024)) (Qabs (Py.binary64 (a # p))))
    eqn:Hover; [| reflexivity].
  exfalso. apply Qle_bool_iff in Hover.
  assert (Habs : (Qabs (Py.binary64 (a # p)) <= inject_Z (2 ^ 1023))%Q)
    by (apply Qabs_Qle_condition; split; assumption).
  assert (Hle := Qle_trans _ _ _ Hover Habs).
  unfold Qle, inject_Z in Hle. cbn [Qnum Qden] in Hle. lia.
Qed.

(** [determine_length_increment] returns for every length that is the
    [int] of a float. *)
Lemma increment_returns (length : Z) :
  Z.abs length < 2 ^ 1024 ->
  exists increment, determine_length_increment length = inr increment.
Proof.
  intros Hlen. unfold determine_length_increment.
  destruct (60000 <=? length).
  - rewrite (true_div_returns length 600) by (assumption || lia).
    eexists. reflexivity.
  - rewrite (true_div_returns length 100) by (assumption || lia).
    eexists. reflexivity.
Qed.

Lemma binary64_of_negative (n : Z) (p : positive) :
  n <= 0 -> Py.int (Py.binary64 (n # p)) <= 0.
Proof.
  intros Hn. unfold Py.binary64. cbn [Qnum Qden].
  destruct (Z.eqb_spec n 0) as [| Hn0]; [reflexivity |].
  set (ex := Py.ulp_exponent n (Z.pos p)).
  assert (Hquot : forall m d, m <= 0 -> 0 < d -> Z.quot m d <= 0).
  { intros m d Hm Hd. replace m with (- - m) by lia.
    rewrite Z.quot_opp_l by lia.
    assert (0 <= Z.quot (- m) d) by (apply Z.quot_pos; lia). lia. }
  destruct (Z.leb_spec 0 ex) as [Hex | Hex].
  - assert (0 < 2 ^ ex) by (apply Z.pow_pos_nonneg; lia).
    assert (Py.round_half_even n (Z.pos p * 2 ^ ex) <= 0)
      by (apply round_half_even_upper; nia).
    unfold Py.int, inject_Z. cbn [Qnum Qden]. apply Hquot; nia.
  - assert (0 < 2 ^ (- ex)) by (apply Z.pow_pos_nonneg; lia).
    assert (Py.round_half_even (n * 2 ^ (- ex)) (Z.pos p) <= 0)
      by (apply round_half_even_upper; nia).
    unfold Py.int. cbn [Qnum Qden]. apply Hquot; lia.
Qed.

(** [determine_length_increment] returns for every length that the
    [int] of a float can be, a negative one as well, and whenever it
    returns the increment is at least 1, so the [range] of the main
    loop never has a zero step; the increment is 1 exactly for the
    lengths below 200. *)
Theorem increment_at_least_one (length : Z) :
  (Z.abs length < 2 ^ 1024 ->
   exists increment, determine_length_increment length = inr increment)
  /\ (forall increment,
        determine_length_increment length = inr increment ->
        1 <= increment /\ (increment = 1 <-> length < 200)).
Proof.
  split; [apply increment_returns |].
  intros increment Hinc.
  assert (Hpos := increment_positive length increment Hinc).
  split; [lia |].
  destruct (Z.lt_ge_cases length 0) as [Hneg | Hnonneg].
  - unfold determine_length_increment in Hinc.
    destruct (Z.leb_spec 60000 length); [lia |].
    rewrite (true_div_ratio length 100) in Hinc.
    destruct (Py.overflows _); [discriminate |].
    inversion Hinc; subst. rewrite int_max_one.
    assert (Hle := binary64_of_negative length 100 ltac:(lia)).
    lia.
  - destruct (Z.lt_ge_cases length 60000) as [Hshort | Hlong].
    + rewrite increment_of_nonneg in Hinc
        by (change (2 ^ 44) with 17592186044416; lia).
      destruct (Z.ltb_spec length 60000); [| lia].
      inversion Hinc; subst.
      assert (Hdm := Z.div_mod length 100 ltac:(lia)).
      assert (Hr := Z.mod_pos_bound length 100 ltac:(lia)).
      lia.
    + assert (Hcover := increment_covers_long length increment Hlong Hinc).
      lia.
Qed.

Example increment_of_a_negative_length :
  determine_length_increment (-7) = inr 1
  /\ determine_length_increment (- 10 ^ 300) = inr 1.
Proof. split; vm_compute; reflexivity. Qed.

(** ** More on the extent index *)

(** On overlapping extents the first one in the order of the index
    decides. *)
Theorem locate_first_match (front back : extents_dict) (extent : bounds)
    (path : string) (x y : Q) :
  (forall extent' path',
      In (extent', path') front -> ~ in_extent extent' x y) ->
  in_extent extent x y ->
  get_tile_path_for_point (front ++ (extent, path) :: back) x y = inr path.
Proof.
  intros Hfront Hhere.
  induction front as [| [[[[left_ bottom] right_] top] p] rest IH]; simpl.
  - destruct extent as [[[left_ bottom] right_] top].
    apply contains_in_extent in Hhere. now rewrite Hhere.
  - destruct (Qle_bool left_ x && Qle_bool x right_
              && Qle_bool y top && Qle_bool bottom y) eqn:Hin.
    + apply contains_in_extent in Hin.
      destruct (Hfront (left_, bottom, right_, top) p); [now left | exact Hin].
    + apply IH. intros extent' path' Hmem.
      apply (Hfront extent' path'). now right.
Qed.

Lemma locate_first_match_witness :
  (forall extent' path',
      In (extent', path') (@nil (bounds * string)) -> ~ in_extent extent' 10 5)
  /\ in_extent (0, 0, 10, 10)%Q 10 5
  /\ get_tile_path_for_point
       ([] ++ ((0, 0, 10, 10)%Q, "tile1"%string)
           :: [((10, 0, 20, 10)%Q, "tile2"%string)]) 10 5
     = inr "tile1"%string.
Proof.
  assert (Hfront : forall extent' path',
             In (extent', path') (@nil (bounds * string)) ->
             ~ in_extent extent' 10 5) by (intros ? ? []).
  assert (Hhere : in_extent (0, 0, 10, 10)%Q 10 5)
    by (unfold in_extent; repeat split; apply Qle_bool_iff; reflexivity).
  split; [exact Hfront |]. split; [exact Hhere |].
  exact (locate_first_match [] [((10, 0, 20, 10)%Q, "tile2"%string)]
           (0, 0, 10, 10)%Q "tile1" 10 5 Hfront Hhere).
Defined.

Lemma load_extents_from_raises (fs : filesystem) (tile_paths : list string)
    (extents : extents_dict) (err : exn) :
  load_extents_from fs tile_paths extents = inl err ->
  exists front tile_path back,
    tile_paths = front ++ tile_path :: back
    /\ (forall p, In p front -> open_raster fs p <> None)
    /\ open_raster fs tile_path = None
    /\ err = RasterioIOError tile_path.
Proof.
  revert extents.
  induction tile_paths as [| p rest IH]; intros extents; simpl;
    [discriminate |].
  destruct (open_raster fs p) as [tile |] eqn:Hopen.
  - intros Hrun. destruct (IH _ Hrun) as (front & q & back & -> & Hok & Hq & ->).
    exists (p :: front), q, back. repeat split; try assumption.
    intros p' [<- | Hin]; [congruence | now apply Hok].
  - intros Hrun. inversion Hrun; subst.
    exists [], p, rest. repeat split; try assumption. intros p' [].
Qed.

Lemma load_extents_from_returns (fs : filesystem) (tile_paths : list string)
    (extents : extents_dict) :
  (forall p, In p tile_paths -> open_raster fs p <> None) ->
  exists index, load_extents_from fs tile_paths extents = inr index.
Proof.
  revert extents.
  induction tile_paths as [| p rest IH]; intros extents Hall; simpl.
  - now exists extents.
  - destruct (open_raster fs p) as [tile |] eqn:Hopen.
    + apply IH. intros p' Hin. apply Hall. now right.
    + destruct (Hall p); [now left | assumption].
Qed.

(** [load_extents] returns an index exactly when every tile of the
    folder opens. Otherwise it raises the error of the first tile, in the
    order of the listing, that does not open, and no index is returned,
    whatever the tiles before and after it. *)
Theorem load_extents_all_or_nothing (fs : filesystem) (dem_folder : string) :
  ((forall p, In p (glob_tif fs dem_folder) -> open_raster fs p <> None)
   <-> exists index, load_extents fs dem_folder = inr index)
  /\ (forall err,
        load_extents fs dem_folder = inl err ->
        exists front tile_path back,
          glob_tif fs dem_folder = front ++ tile_path :: back
          /\ (forall p, In p front -> open_raster fs p <> None)
          /\ open_raster fs tile_path = None
          /\ err = RasterioIOError tile_path).
Proof.
  unfold load_extents. split; [split |].
  - apply load_extents_from_returns.
  - intros [index Hrun] p Hin Hclosed.
    destruct (in_split _ _ Hin) as (l1 & l2 & Hsplit).
    assert (Hnone : forall l extents,
               load_extents_from fs (l ++ p :: l2) extents <> inr index).
    { induction l as [| q l IHl]; intros extents; simpl.
      - rewrite Hclosed. discriminate.
      - destruct (open_raster fs q); [apply IHl | discriminate]. }
    rewrite Hsplit in Hrun. now apply (Hnone l1 []).
  - intros err. apply load_extents_from_raises.
Qed.

(** *** The index against the files *)

Lemma bounds_eqb_refl (k : bounds) : bounds_eqb k k = true.
Proof.
  destruct k as [[[l b] r] t]. unfold bounds_eqb.
  now rewrite !Qeq_bool_refl.
Qed.

Lemma bounds_eqb_in_extent (k k' : bounds) (x y : Q) :
  bounds_eqb k k' = true -> (in_extent k x y <-> in_extent k' x y).
Proof.
  destruct k as [[[l b] r] t], k' as [[[l' b'] r'] t'].
  unfold bounds_eqb, in_extent.
  rewrite !andb_true_iff, !Qeq_bool_iff.
  intros [[[Hl Hb] Hr] Ht]. now rewrite Hl, Hb, Hr, Ht.
Qed.

Lemma dict_set_In (extents : extents_dict) (key : bounds) (value : string)
    (k : bounds) (v : string) :
  In (k, v) (dict_set extents key value) ->
  In (k, v) extents \/ (v = value /\ bounds_eqb k key = true).
Proof.
  induction extents as [| [k0 v0] rest IH]; simpl.
  - intros [Heq | []]. inversion Heq; subst. right.
    split; [reflexivity | apply bounds_eqb_refl].
  - destruct (bounds_eqb k0 key) eqn:Hk0; simpl.
    + intros [Heq | Hin]; [| left; now right].
      inversion Heq; subst. right. now split.
    + intros [Heq | Hin]; [left; now left |].
      destruct (IH Hin) as [Hold | Hnew]; [left; now right | now right].
Qed.

Lemma dict_set_keeps_keys (extents : extents_dict) (key : bounds)
    (value : string) (k : bounds) (v : string) :
  In (k, v) extents ->
  exists v', In (k, v') (dict_set extents key value).
Proof.
  induction extents as [| [k0 v0] rest IH]; simpl; [intros [] |].
  destruct (bounds_eqb k0 key) eqn:Hk0; simpl.
  - intros [Heq | Hin].
    + inversion Heq; subst. exists value. now left.
    + exists v. now right.
  - intros [Heq | Hin].
    + exists v. now left.
    + destruct (IH Hin) as [v' Hv']. exists v'. now right.
Qed.

Lemma dict_set_has_key (extents : extents_dict) (key : bounds)
    (value : string) :
  exists k, In (k, value) (dict_set extents key value)
            /\ bounds_eqb k key = true.
Proof.
  induction extents as [| [k0 v0] rest IH]; simpl.
  - exists key. split; [now left | apply bounds_eqb_refl].
  - destruct (bounds_eqb k0 key) eqn:Hk0.
    + exists k0. split; [now left | assumption].
    + destruct IH as (k & Hin & Hk). exists k. split; [now right | assumption].
Qed.

Lemma load_extents_from_index (fs : filesystem) (rest seen : list string)
    (extents index : extents_dict) :
  index_sound fs seen extents ->
  index_complete fs seen extents ->
  load_extents_from fs rest extents = inr index ->
  index_sound fs (seen ++ rest) index
  /\ index_complete fs (seen ++ rest) index.
Proof.
  revert seen extents.
  induction rest as [| p rest IH]; intros seen extents Hsound Hcomplete; simpl.
  - intros Hrun. inversion Hrun; subst. rewrite app_nil_r. now split.
  - destruct (open_raster fs p) as [tile |] eqn:Hopen; [| discriminate].
    intros Hrun.
    replace (seen ++ p :: rest) with ((seen ++ [p]) ++ rest)
      by (now rewrite <- app_assoc).
    apply (IH (seen ++ [p])
              (dict_set extents (dataset_bounds tile) p)); [| | exact Hrun].
    + intros k v Hin. apply dict_set_In in Hin.
      destruct Hin as [Hold | [-> Hk]].
      * destruct (Hsound k v Hold) as [Hseen Htile].
        split; [apply in_or_app; now left | exact Htile].
      * split; [apply in_or_app; right; now left |].
        exists tile. now split.
    + intros q tile' Hin Hopen'. apply in_app_or in Hin.
      destruct Hin as [Hseen | [<- | []]].
      * destruct (Hcomplete q tile' Hseen Hopen') as (k & v & Hin & Hk).
        destruct (dict_set_keeps_keys extents (dataset_bounds tile) p k v Hin)
          as [v' Hv'].
        now exists k, v'.
      * assert (tile' = tile) by congruence. subst tile'.
        destruct (dict_set_has_key extents (dataset_bounds tile) p)
          as (k & Hin & Hk).
        now exists k, p.
Qed.

(** Locating a point in the index that [load_extents] built agrees with
    the files: a path that is returned is a tile of the folder whose own
    bounds contain the point, and some path is returned as soon as the
    bounds of one tile of the folder contain the point. *)
Theorem locate_in_loaded_extents (fs : filesystem) (dem_folder : string)
    (extents : extents_dict) (x y : Q) :
  load_extents fs dem_folder = inr extents ->
  (forall path,
      get_tile_path_for_point extents x y = inr path ->
      In path (glob_tif fs dem_folder)
      /\ exists tile,
           open_raster fs path = Some tile
           /\ in_extent (dataset_bounds tile) x y)
  /\ (forall p tile,
        In p (glob_tif fs dem_folder) ->
        open_raster fs p = Some tile ->
        in_extent (dataset_bounds tile) x y ->
        exists path, get_tile_path_for_point extents x y = inr path).
Proof.
  intros Hload. unfold load_extents in Hload.
  destruct (load_extents_from_index fs (glob_tif fs dem_folder) [] [] extents)
    as [Hsound Hcomplete]; [intros ? ? [] | intros ? ? [] | exact Hload |].
  simpl in Hsound, Hcomplete. split.
  - intros path Hget.
    destruct (locate_found extents x y path Hget) as (k & Hin & Hk).
    destruct (Hsound k path Hin) as (Hglob & tile & Hopen & Heq).
    split; [exact Hglob |]. exists tile. split; [exact Hopen |].
    now apply (bounds_eqb_in_extent k (dataset_bounds tile)).
  - intros p tile Hglob Hopen Hin.
    destruct (Hcomplete p tile Hglob Hopen) as (k & v & Hmem & Heq).
    destruct (get_tile_path_for_point extents x y) as [err | path] eqn:Hget;
      [| now exists path].
    destruct (locate_raises extents x y err Hget) as [_ Hnone].
    destruct (Hnone k v Hmem).
    now apply (bounds_eqb_in_extent k (dataset_bounds tile)).
Qed.

Lemma locate_in_loaded_extents_witness :
  load_extents turned_folder "dem"
    = inr [((0, -2, 4, 2)%Q, "dem/turned.tif"%string)]
  /\ ((forall path,
          get_tile_path_for_point
            [((0, -2, 4, 2)%Q, "dem/turned.tif"%string)] 1 1 = inr path ->
          In path (glob_tif turned_folder "dem")
          /\ exists tile,
               open_raster turned_folder path = Some tile
               /\ in_extent (dataset_bounds tile) 1 1)
      /\ (forall p tile,
            In p (glob_tif turned_folder "dem") ->
            open_raster turned_folder p = Some tile ->
            in_extent (dataset_bounds tile) 1 1 ->
            exists path,
              get_tile_path_for_point
                [((0, -2, 4, 2)%Q, "dem/turned.tif"%string)] 1 1
              = inr path)).
Proof.
  assert (Hload : load_extents turned_folder "dem"
                  = inr [((0, -2, 4, 2)%Q, "dem/turned.tif"%string)])
    by reflexivity.
  split; [exact Hload |].
  exact (locate_in_loaded_extents turned_folder "dem"
           [((0, -2, 4, 2)%Q, "dem/turned.tif"%string)] 1 1 Hload).
Defined.

(** *** One entry for each bounds *)

Lemma bounds_eqb_sym (k k' : bounds) : bounds_eqb k k' = bounds_eqb k' k.
Proof.
  destruct k as [[[l b] r] t], k' as [[[l' b'] r'] t'].
  unfold bounds_eqb.
  now rewrite (Qeq_bool_comm l), (Qeq_bool_comm b), (Qeq_bool_comm r),
    (Qeq_bool_comm t).
Qed.

Lemma bounds_eqb_trans (k1 k2 k3 : bounds) :
  bounds_eqb k1 k2 = true -> bounds_eqb k2 k3 = true ->
  bounds_eqb k1 k3 = true.
Proof.
  destruct k1 as [[[l1 b1] r1] t1], k2 as [[[l2 b2] r2] t2],
    k3 as [[[l3 b3] r3] t3].
  unfold bounds_eqb. rewrite !andb_true_iff, !Qeq_bool_iff.
  intros [[[Hl Hb] Hr] Ht] [[[Hl' Hb'] Hr'] Ht'].
  repeat split; etransitivity; eassumption.
Qed.

Lemma dict_set_In_distinct (extents : extents_dict) (key : bounds)
    (value : string) (k : bounds) (v : string) :
  keys_distinct extents ->
  In (k, v) (dict_set extents key value) ->
  (v = value /\ bounds_eqb k key = true)
  \/ (In (k, v) extents /\ bounds_eqb k key = false).
Proof.
  unfold keys_distinct.
  induction extents as [| [k0 v0] rest IH]; simpl; intros Hdistinct.
  - intros [Heq | []]. inversion Heq; subst. left.
    split; [reflexivity | apply bounds_eqb_refl].
  - inversion Hdistinct as [| ? ? Hhead Htail]; subst.
    destruct (bounds_eqb k0 key) eqn:Hk0; simpl.
    + intros [Heq | Hin].
      * inversion Heq; subst. left. now split.
      * right. split; [now right |].
        rewrite Forall_forall in Hhead. specialize (Hhead (k, v) Hin).
        simpl in Hhead.
        destruct (bounds_eqb k key) eqn:Hk; [| reflexivity].
        rewrite bounds_eqb_sym in Hk.
        now rewrite (bounds_eqb_trans k0 key k Hk0 Hk) in Hhead.
    + intros [Heq | Hin].
      * inversion Heq; subst. right. split; [now left | assumption].
      * destruct (IH Htail Hin) as [Hnew | [Hold Hk]];
          [now left | right; split; [now right | assumption]].
Qed.

Lemma dict_set_keys_distinct (extents : extents_dict) (key : bounds)
    (value : string) :
  keys_distinct extents -> keys_distinct (dict_set extents key value).
Proof.
  unfold keys_distinct.
  induction extents as [| [k0 v0] rest IH]; simpl; intros Hdistinct.
  - constructor; constructor.
  - inversion Hdistinct as [| ? ? Hhead Htail]; subst.
    destruct (bounds_eqb k0 key) eqn:Hk0.
    + constructor; assumption.
    + constructor; [| now apply IH].
      rewrite Forall_forall in *. intros [k v] Hin. simpl.
      apply dict_set_In in Hin. destruct Hin as [Hold | [-> Hk]].
      * exact (Hhead (k, v) Hold).
      * destruct (bounds_eqb k0 k) eqn:Hk0k; [| reflexivity].
        now rewrite (bounds_eqb_trans k0 k key Hk0k Hk) in Hk0.
Qed.

Lemma dict_set_length (extents : extents_dict) (key : bounds)
    (value : string) :
  (List.length (dict_set extents key value) <= S (List.length extents))%nat.
Proof.
  induction extents as [| [k0 v0] rest IH]; simpl; [lia |].
  destruct (bounds_eqb k0 key); simpl; lia.
Qed.

Lemma load_extents_from_shape (fs : filesystem) (rest seen : list string)
    (extents index : extents_dict) :
  keys_distinct extents ->
  (List.length extents <= List.length seen)%nat ->
  (forall k v, In (k, v) extents -> last_with_bounds fs seen k v) ->
  load_extents_from fs rest extents = inr index ->
  keys_distinct index
  /\ (List.length index <= List.length (seen ++ rest))%nat
  /\ (forall k v, In (k, v) index -> last_with_bounds fs (seen ++ rest) k v).
Proof.
  revert seen extents.
  induction rest as [| p rest IH]; intros seen extents Hdistinct Hsize Hlast;
    simpl.
  - intros Hrun. inversion Hrun; subst. rewrite app_nil_r. auto.
  - destruct (open_raster fs p) as [tile |] eqn:Hopen; [| discriminate].
    intros Hrun.
    replace (seen ++ p :: rest) with ((seen ++ [p]) ++ rest)
      by (now rewrite <- app_assoc).
    apply (IH (seen ++ [p]) (dict_set extents (dataset_bounds tile) p));
      [| | | exact Hrun].
    + now apply dict_set_keys_distinct.
    + rewrite length_app. simpl.
      assert (Hlen := dict_set_length extents (dataset_bounds tile) p). lia.
    + intros k v Hin.
      apply dict_set_In_distinct in Hin; [| assumption].
      destruct Hin as [[-> Hk] | [Hold Hk]].
      * exists seen, []. split; [reflexivity |].
        split; [now exists tile | intros ? ? []].
      * destruct (Hlast k v Hold) as (before & after & -> & Hopens & Hafter).
        exists before, (after ++ [p]). split; [now rewrite <- app_assoc |].
        split; [exact Hopens |].
        intros q tile' Hq Hopen'. apply in_app_or in Hq.
        destruct Hq as [Hq | [<- | []]]; [now apply (Hafter q) |].
        assert (tile' = tile) by congruence. now subst.
Qed.

(** The index [load_extents] returns has one entry for each bounds: no
    two keys are equal, there are at most as many entries as tiles, and
    the path of an entry is the last listed tile with these bounds, so a
    tile listed before another with the same bounds is not in the
    index. *)
Theorem load_extents_one_entry_per_bounds (fs : filesystem)
    (dem_folder : string) (extents : extents_dict) :
  load_extents fs dem_folder = inr extents ->
  keys_distinct extents
  /\ (List.length extents <= List.length (glob_tif fs dem_folder))%nat
  /\ (forall k v,
        In (k, v) extents ->
        last_with_bounds fs (glob_tif fs dem_folder) k v).
Proof.
  intros Hload. unfold load_extents in Hload.
  apply (load_extents_from_shape fs (glob_tif fs dem_folder) [] [] extents).
  - constructor.
  - simpl. lia.
  - intros ? ? [].
  - exact Hload.
Qed.

Lemma load_extents_one_entry_per_bounds_witness :
  load_extents twin_folder "dem"
    = inr [((0, 0, 120000, 100)%Q, "dem/b.tif"%string)]
  /\ (keys_distinct [((0, 0, 120000, 100)%Q, "dem/b.tif"%string)]
      /\ (List.length [((0, 0, 120000, 100)%Q, "dem/b.tif"%string)]
          <= List.length (glob_tif twin_folder "dem"))%nat
      /\ (forall k v,
            In (k, v) [((0, 0, 120000, 100)%Q, "dem/b.tif"%string)] ->
            last_with_bounds twin_folder (glob_tif twin_folder "dem") k v)).
Proof.
  assert (Hload : load_extents twin_folder "dem"
                  = inr [((0, 0, 120000, 100)%Q, "dem/b.tif"%string)])
    by reflexivity.
  split; [exact Hload |].
  exact (load_extents_one_entry_per_bounds twin_folder "dem"
           [((0, 0, 120000, 100)%Q, "dem/b.tif"%string)] Hload).
Defined.

(** ** The cache does not change what is read *)

Lemma load_dataset_is_fresh_decode (fs : filesystem) (tile_path : string)
    (w : world) :
  cache_coherent fs w ->
  fst (load_dataset fs tile_path w) = fresh_decode fs tile_path.
Proof.
  intros Hcoh. rewrite load_dataset_result.
  destruct (cache_get (load_dataset_cache w) tile_path) as [hit |] eqn:Hget;
    [| reflexivity].
  symmetry. now apply Hcoh.
Qed.

Lemma sample_at_is_elevation_at (fs : filesystem)
    (pyproj_transform : string -> string -> point -> point)
    (interpolate : list point -> Z -> point)
    (extents : extents_dict) (line_geometry : list point)
    (currentdistance : Z) (w : world) :
  cache_coherent fs w ->
  fst (sample_at fs pyproj_transform interpolate extents line_geometry
         currentdistance w)
  = (let '(xp, yp) :=
       pyproj_transform "epsg:27700"%string "epsg:4326"%string
         (interpolate line_geometry currentdistance) in
     elevation_at fs extents xp yp).
Proof.
  intros Hcoh.
  unfold sample_at, bind, transform_point, lift, elevation_at.
  destruct (pyproj_transform _ _ _) as [xp yp].
  destruct (get_tile_path_for_point extents xp yp) as [err | tile_path];
    [reflexivity |].
  set (w1 := World _ _ _).
  assert (Hcoh1 : cache_coherent fs w1)
    by (now apply (coherent_same_cache fs w)).
  assert (Hload := load_dataset_is_fresh_decode fs tile_path w1 Hcoh1).
  unfold get_value_from_dem_tile, bind.
  destruct (load_dataset fs tile_path w1) as [[err | [band inverse]] w2];
    cbn [fst] in Hload; rewrite <- Hload; [reflexivity |].
  rewrite transform_xy_to_rowcol_floors. unfold lift, ret.
  now destruct (ndarray_getitem band _ _).
Qed.

Lemma for_each_is_all_or_first_error (fs : filesystem)
    (pyproj_transform : string -> string -> point -> point)
    (interpolate : list point -> Z -> point)
    (extents : extents_dict) (line_geometry : list point)
    (distances : list Z) (w : world) :
  cache_coherent fs w ->
  fst (for_each distances
         (sample_at fs pyproj_transform interpolate extents line_geometry) w)
  = all_or_first_error
      (fun distance =>
         let '(xp, yp) :=
           pyproj_transform "epsg:27700"%string "epsg:4326"%string
             (interpolate line_geometry distance) in
         elevation_at fs extents xp yp)
      distances.
Proof.
  revert w. induction distances as [| distance rest IH]; intros w Hcoh;
    [reflexivity |].
  cbn [for_each all_or_first_error]. unfold bind at 1.
  assert (Hfirst := sample_at_is_elevation_at fs pyproj_transform interpolate
                      extents line_geometry distance w Hcoh).
  assert (Hcoh1 := coherent_sample_at fs pyproj_transform interpolate extents
                     line_geometry distance w Hcoh).
  destruct (sample_at fs pyproj_transform interpolate extents line_geometry
              distance w) as [[err | z] w1];
    cbn [fst snd] in Hfirst, Hcoh1; rewrite <- Hfirst; [reflexivity |].
  rewrite <- (IH w1 Hcoh1). unfold bind, ret.
  now destruct (for_each rest _ w1) as [[err | zs] w2].
Qed.

(** Started on a cache that holds fresh decodes, [terrain_module]
    returns or raises exactly what reading every sample straight from
    the files gives: the cache and the order of its evictions never
    change a profile or an error. *)
Theorem terrain_module_reads_the_files (fs : filesystem)
    (pyproj_transform : string -> string -> point -> point)
    (geometry_length : list point -> Q)
    (interpolate : list point -> Z -> point)
    (dem_folder : string) (line : list point) (old_crs new_crs : string)
    (w : world) :
  cache_coherent fs w ->
  fst (terrain_module fs pyproj_transform geometry_length interpolate
         dem_folder line old_crs new_crs w)
  = profile_from_files fs pyproj_transform geometry_length interpolate
      dem_folder line.
Proof.
  intros Hcoh. unfold terrain_module, profile_from_files, bind, lift, transform.
  destruct (load_extents fs dem_folder) as [err | extents]; [reflexivity |].
  set (line_geometry := map _ line).
  set (length := Py.int (geometry_length line_geometry)).
  assert (Hinc := increment_positive length).
  destruct (determine_length_increment length) as [err | increment];
    [reflexivity |].
  specialize (Hinc increment eq_refl).
  destruct (Z.eqb_spec increment 0) as [H0 | _]; [lia |].
  apply for_each_is_all_or_first_error.
  now apply (coherent_same_cache fs w).
Qed.

Lemma terrain_module_reads_the_files_witness :
  cache_coherent strip_folder initial_world
  /\ fst (terrain_module strip_folder same_place eastward_length
            eastward_interpolate "dem" strip_line "EPSG:4326" "EPSG:27700"
            initial_world)
     = profile_from_files strip_folder same_place eastward_length
         eastward_interpolate "dem" strip_line.
Proof.
  split; [apply coherent_initial |].
  exact (terrain_module_reads_the_files strip_folder same_place
           eastward_length eastward_interpolate "dem" strip_line
           "EPSG:4326" "EPSG:27700" initial_world
           (coherent_initial strip_folder)).
Defined.

(** ** The size of a returned profile *)

(** A profile that [terrain_module] returns has one elevation for each
    sampled distance and so never more than 606 elevations, whatever the
    line, the tiles and the state of the cache. *)
Theorem returned_profile_at_most_606 (fs : filesystem)
    (pyproj_transform : string -> string -> point -> point)
    (geometry_length : list point -> Q)
    (interpolate : list point -> Z -> point)
    (dem_folder : string) (line : list point) (old_crs new_crs : string)
    (w w' : world) (profile : list Q) :
  terrain_module fs pyproj_transform geometry_length interpolate
                 dem_folder line old_crs new_crs w = (inr profile, w') ->
  List.length profile
  = List.length
      (sample_distances
         (Py.int (geometry_length
                    (map (pyproj_transform "epsg:4326" "epsg:27700")%string
                         line))))
  /\ (List.length profile <= 606)%nat.
Proof.
  intros Hrun. apply profile_length in Hrun. split; [exact Hrun |].
  rewrite Hrun. apply sample_count_any_length.
Qed.

Lemma returned_profile_at_most_606_witness :
  terrain_module strip_folder same_place eastward_length
    eastward_interpolate "dem" strip_line
    "EPSG:4326" "EPSG:27700" initial_world
  = (inr strip_profile, snd strip_run)
  /\ List.length strip_profile = 606%nat
  /\ (List.length strip_profile
      = List.length
          (sample_distances
             (Py.int (eastward_length
                        (map (same_place "epsg:4326" "epsg:27700")%string
                             strip_line))))
      /\ (List.length strip_profile <= 606)%nat).
Proof.
  assert (Hrun : terrain_module strip_folder same_place eastward_length
                   eastward_interpolate "dem" strip_line
                   "EPSG:4326" "EPSG:27700" initial_world
                 = (inr strip_profile, snd strip_run))
    by (vm_compute; reflexivity).
  split; [exact Hrun |]. split; [vm_compute; reflexivity |].
  exact (returned_profile_at_most_606 strip_folder same_place eastward_length
           eastward_interpolate "dem" strip_line
           "EPSG:4326" "EPSG:27700" initial_world _ strip_profile Hrun).
Defined.

(** ** The cache after a run *)

Lemma coherent_terrain_module_witness :
  cache_coherent turned_folder initial_world
  /\ cache_coherent turned_folder
       (snd (terrain_module turned_folder same_place eastward_length
               eastward_interpolate "dem" [(1, 1); (3, 1)]%Q
               "EPSG:4326" "EPSG:27700" initial_world)).
Proof.
  split; [apply coherent_initial |].
  exact (coherent_terrain_module turned_folder same_place
           eastward_length eastward_interpolate "dem" [(1, 1); (3, 1)]%Q
           "EPSG:4326" "EPSG:27700" initial_world
           (coherent_initial turned_folder)).
Defined.

(** ** Rounded transforms *)

(** The inverse of the strip tile's transform has rounded coefficients:
    [1 / (40000 * -50)] is not a binary64 number, and the column
    coefficient is 2.4999999999999998e-05, just below [1 / 40000]. *)
Example strip_inverse_is_rounded :
  affine_invert (dataset_transform strip_dataset) = inr strip_inverse
  /\ (sa strip_inverse == 1844674407370955 # 73786976294838206464)%Q
  /\ (sa strip_inverse < 1 # 40000)%Q.
Proof. repeat split; vm_compute; reflexivity. Qed.

(** So the point on the east edge of the strip tile falls into the last
    column, and the point on its south edge into the last row: the call
    at the corner [(120000, 50)] returns the value 60 of cell (1, 2). *)
Example strip_east_edge_is_read :
  transform_xy_to_rowcol strip_inverse 120000 50 = (1, 2)
  /\ fst (get_value_from_dem_tile strip_folder "dem/strip.tif" 120000 50
            initial_world) = inr 60%Q.
Proof. split; vm_compute; reflexivity. Qed.

(** A determinant that underflows to zero makes [~transform] raise,
    although no coefficient on the diagonal is zero. *)
Example tiny_transform_has_no_inverse :
  affine_invert (Affine (1 # 10 ^ 200) 0 0 0 (1 # 10 ^ 200) 0)%Q
  = inl TransformNotInvertibleError.
Proof. vm_compute. reflexivity. Qed.

(** ** How often a tile is decoded *)

Lemma distinct_In (keys : list string) (key : string) :
  In key (distinct keys) <-> In key keys.
Proof.
  induction keys as [| k rest IH]; simpl; [tauto |].
  rewrite filter_In, IH. unfold other.
  destruct (String.eqb_spec key k) as [-> | Hne]; simpl.
  - tauto.
  - split.
    + intros [Heq | [Hin _]]; [now left | now right].
    + intros [Heq | Hin]; [now left | right; now split].
Qed.

Lemma distinct_snoc_new (keys : list string) (key : string) :
  ~ In key keys -> distinct (keys ++ [key]) = distinct keys ++ [key].
Proof.
  induction keys as [| k rest IH]; intros Hout; [reflexivity |].
  cbn [app distinct]. rewrite IH by (intros Hin; apply Hout; now right).
  rewrite filter_app. cbn [filter]. unfold other at 2.
  destruct (String.eqb_spec key k) as [-> | Hne]; [| reflexivity].
  exfalso. apply Hout. now left.
Qed.

Lemma distinct_snoc_old (keys : list string) (key : string) :
  In key keys -> distinct (keys ++ [key]) = distinct keys.
Proof.
  induction keys as [| k rest IH]; intros Hin; [destruct Hin |].
  cbn [app distinct].
  destruct (in_dec string_dec key rest) as [Hrest | Hrest].
  - now rewrite IH.
  - destruct Hin as [-> | Hin]; [| contradiction].
    rewrite distinct_snoc_new by assumption.
    rewrite filter_app. cbn [filter]. unfold other at 2.
    rewrite String.eqb_refl. cbn [negb]. now rewrite app_nil_r.
Qed.

Lemma distinct_length_rev (keys : list string) :
  List.length (distinct (rev keys)) = List.length (distinct keys).
Proof.
  apply Nat.le_antisymm; apply NoDup_incl_length;
    try apply distinct_NoDup;
    intros key; rewrite !distinct_In, <- in_rev; auto.
Qed.

Lemma filter_all (A : Type) (keep : A -> bool) (items : list A) :
  (forall item, In item items -> keep item = true) ->
  filter keep items = items.
Proof.
  induction items as [| item rest IH]; simpl; intros Hall; [reflexivity |].
  rewrite (Hall item) by now left. f_equal. apply IH.
  intros item' Hin. apply Hall. now right.
Qed.

(** While a run touches at most 32 different tiles, all of which load,
    every tile is decoded once, at its first use: the log of decodes is
    the list of the distinct paths in the order of their first call. *)
Theorem each_tile_decoded_once (fs : filesystem) (tile_paths : list string) :
  (forall p, In p tile_paths -> loadable fs p = true) ->
  (List.length (distinct tile_paths) <= 32)%nat ->
  decoded (after_gets fs tile_paths initial_world) = rev (distinct tile_paths).
Proof.
  induction tile_paths as [| tile_path earlier IH] using rev_ind;
    intros Hall Hfew; [reflexivity |].
  assert (Hall' : forall p, In p earlier -> loadable fs p = true)
    by (intros p Hin; apply Hall, in_or_app; now left).
  assert (Hload : loadable fs tile_path = true)
    by (apply Hall, in_or_app; right; now left).
  assert (Hfew' : (List.length (distinct earlier) <= 32)%nat).
  { destruct (in_dec string_dec tile_path earlier) as [Hin | Hout].
    - now rewrite distinct_snoc_old in Hfew.
    - rewrite distinct_snoc_new, length_app in Hfew by assumption.
      simpl in Hfew. lia. }
  specialize (IH Hall' Hfew').
  rewrite after_gets_snoc.
  assert (Hkeys := cache_keys_after_gets fs earlier).
  unfold recently_used in Hkeys.
  rewrite (filter_all _ _ _ Hall') in Hkeys.
  rewrite firstn_all2 in Hkeys by (rewrite distinct_length_rev; exact Hfew').
  set (w := after_gets fs earlier initial_world) in *.
  destruct (in_dec string_dec tile_path earlier) as [Hin | Hout].
  - destruct (cache_get (load_dataset_cache w) tile_path) as [hit |] eqn:Hget.
    + rewrite (load_dataset_hit fs _ _ _ Hget).
      rewrite distinct_snoc_old by assumption. exact IH.
    + apply cache_get_None in Hget. exfalso. apply Hget.
      rewrite Hkeys. apply distinct_In. now apply -> in_rev.
  - assert (Hget : cache_get (load_dataset_cache w) tile_path = None).
    { apply cache_get_None. rewrite Hkeys, distinct_In, <- in_rev.
      exact Hout. }
    unfold loadable in Hload.
    destruct (fresh_decode fs tile_path) as [err | fresh] eqn:Hdecode;
      [discriminate |].
    destruct (load_dataset_miss_returns fs _ _ _ Hget Hdecode)
      as (_ & _ & ->).
    rewrite IH, distinct_snoc_new, rev_app_distr by assumption. reflexivity.
Qed.

Lemma each_tile_decoded_once_witness :
  (forall p,
      In p ["A"; "B"; "A"; "C"; "B"]%string -> loadable open_folder p = true)
  /\ (List.length (distinct ["A"; "B"; "A"; "C"; "B"]%string) <= 32)%nat
  /\ decoded (after_gets open_folder ["A"; "B"; "A"; "C"; "B"]%string
                initial_world)
     = rev (distinct ["A"; "B"; "A"; "C"; "B"]%string).
Proof.
  assert (Hall : forall p,
             In p ["A"; "B"; "A"; "C"; "B"]%string ->
             loadable open_folder p = true) by (intros p _; reflexivity).
  assert (Hfew : (List.length (distinct ["A"; "B"; "A"; "C"; "B"]%string)
                  <= 32)%nat) by (vm_compute; lia).
  split; [exact Hall |]. split; [exact Hfew |].
  exact (each_tile_decoded_once open_folder
           ["A"; "B"; "A"; "C"; "B"]%string Hall Hfew).
Defined.

(** The cache never holds two entries for one path. *)
Theorem cache_has_no_duplicate_path (fs : filesystem)
    (tile_paths : list string) :
  NoDup (map fst (load_dataset_cache
                    (after_gets fs tile_paths initial_world))).
Proof.
  rewrite cache_keys_after_gets.
  assert (Hnodup : NoDup (recently_used fs tile_paths))
    by apply distinct_NoDup.
  rewrite <- (firstn_skipn 32 (recently_used fs tile_paths)) in Hnodup.
  now apply NoDup_app_remove_r in Hnodup.
Qed.

(** ** A load that raises *)

(** A load that raises is not remembered: on a coherent cache, a path
    whose decode raises makes [load_dataset] raise the same error and
    leaves the cache as it was, so the next call decodes again. *)
Theorem failed_load_is_not_cached (fs : filesystem) (tile_path : string)
    (err : exn) (w : world) :
  cache_coherent fs w ->
  fresh_decode fs tile_path = inl err ->
  fst (load_dataset fs tile_path w) = inl err
  /\ load_dataset_cache (snd (load_dataset fs tile_path w))
     = load_dataset_cache w
  /\ fst (load_dataset fs tile_path (snd (load_dataset fs tile_path w)))
     = inl err.
Proof.
  intros Hcoh Hdecode.
  assert (Hmiss : forall w', cache_coherent fs w' ->
                    cache_get (load_dataset_cache w') tile_path = None).
  { intros w' Hcoh'.
    destruct (cache_get (load_dataset_cache w') tile_path) as [hit |] eqn:Hget;
      [| reflexivity].
    apply Hcoh' in Hget. congruence. }
  destruct (load_dataset_miss_raises fs tile_path err w (Hmiss w Hcoh) Hdecode)
    as [Hres Hcache].
  split; [exact Hres |]. split; [exact Hcache |].
  apply load_dataset_miss_raises; [| exact Hdecode].
  apply Hmiss. now apply coherent_load_dataset.
Qed.

Lemma failed_load_is_not_cached_witness :
  cache_coherent strip_folder initial_world
  /\ fresh_decode strip_folder "dem/missing.tif"
     = inl (RasterioIOError "dem/missing.tif")
  /\ fst (load_dataset strip_folder "dem/missing.tif" initial_world)
     = inl (RasterioIOError "dem/missing.tif")
  /\ load_dataset_cache
       (snd (load_dataset strip_folder "dem/missing.tif" initial_world))
     = load_dataset_cache initial_world
  /\ fst (load_dataset strip_folder "dem/missing.tif"
            (snd (load_dataset strip_folder "dem/missing.tif" initial_world)))
     = inl (RasterioIOError "dem/missing.tif").
Proof.
  assert (Hcoh : cache_coherent strip_folder initial_world)
    by apply coherent_initial.
  assert (Hdecode : fresh_decode strip_folder "dem/missing.tif"
                    = inl (RasterioIOError "dem/missing.tif")) by reflexivity.
  split; [exact Hcoh |]. split; [exact Hdecode |].
  exact (failed_load_is_not_cached strip_folder "dem/missing.tif"
           (RasterioIOError "dem/missing.tif") initial_world Hcoh Hdecode).
Defined.
